(** * oumodulesbot: code resolution, liveness check and reply reconciliation

    A shallow embedding of [src/oumodulesbot.py] (the chat plugin) and of
    [src/oumodulesbot/ou_sparql_utils.py] (catalogue queries and liveness
    check), followed by the properties of the specification that concern
    them.

    Conventions.
    - Python text ([str]) is modelled by the [string] of its UTF-8
      bytes.  [split], [len], [startswith], [replace] and the two
      patterns read the code points off the bytes; the case mapping and
      the test for letters and digits of the plugin, which follow the
      tables of Unicode, are parameters of the plugin.  The codes and the
      urls of [ou_sparql_utils] are ASCII text, on which [upper] and
      [lower] are the Python methods.
    - What [requests] hands back as the body of a page is [bytes], a
      type of its own.
    - Effects are explicit: every operation runs in a state-and-exception
      monad whose state carries the trace of the effects performed so far
      (requests, log records, chat API calls).  The outside world is an
      oracle that answers a request knowing the whole trace before it.
    - Python integers are [Z]. *)

From Stdlib Require Import Strings.String Strings.Ascii Lists.List ZArith.ZArith
  Arith.PeanoNat Bool.Bool micromega.Lia.
Import ListNotations.

Local Open Scope string_scope.
Local Open Scope list_scope.
Set Warnings "-register-all".

(* ===================================================================== *)
(** ** Python strings *)
(* ===================================================================== *)

Module PyStr.

Definition code_in (lo hi : nat) (c : ascii) : bool :=
  let n := nat_of_ascii c in (lo <=? n)%nat && (n <=? hi)%nat.

Definition is_upper_c : ascii -> bool := code_in 65 90.
Definition is_lower_c : ascii -> bool := code_in 97 122.
Definition is_digit_c : ascii -> bool := code_in 48 57.
Definition is_alpha_c (c : ascii) : bool := is_upper_c c || is_lower_c c.
Definition is_alnum_c (c : ascii) : bool := is_alpha_c c || is_digit_c c.

(** [str.isspace] on one ASCII character: TAB, LF, VT, FF, CR, the four
    separators FS, GS, RS, US, and the blank. *)
Definition is_space_c (c : ascii) : bool :=
  code_in 9 13 c || code_in 28 32 c.

Definition upper_c (c : ascii) : ascii :=
  if is_lower_c c then ascii_of_nat (nat_of_ascii c - 32) else c.

Definition lower_c (c : ascii) : ascii :=
  if is_upper_c c then ascii_of_nat (nat_of_ascii c + 32) else c.

Fixpoint map_str (f : ascii -> ascii) (s : string) : string :=
  match s with
  | EmptyString => EmptyString
  | String c s' => String (f c) (map_str f s')
  end.

(** [s.upper()] and [s.lower()] on ASCII text. *)
Definition upper : string -> string := map_str upper_c.
Definition lower : string -> string := map_str lower_c.

Fixpoint all_str (p : ascii -> bool) (s : string) : bool :=
  match s with
  | EmptyString => true
  | String c s' => p c && all_str p s'
  end.

(** [s.replace(c, '')] for a one-character [c]. *)
Fixpoint remove_char (c : ascii) (s : string) : string :=
  match s with
  | EmptyString => EmptyString
  | String d s' =>
      if Ascii.eqb c d then remove_char c s' else String d (remove_char c s')
  end.

(** [s.startswith(p)]. *)
Fixpoint startswith (p s : string) : bool :=
  match p, s with
  | EmptyString, _ => true
  | String a p', String b s' => Ascii.eqb a b && startswith p' s'
  | String _ _, EmptyString => false
  end.

(** [needle in hay]. *)
Fixpoint str_in (needle hay : string) : bool :=
  startswith needle hay ||
  match hay with
  | EmptyString => false
  | String _ hay' => str_in needle hay'
  end.

(** [s[n:]]. *)
Fixpoint drop (n : nat) (s : string) : string :=
  match n, s with
  | O, _ => s
  | S n', String _ s' => drop n' s'
  | S _, EmptyString => EmptyString
  end.

(** The number of bytes of the blank that [s] starts with, 0 when it
    starts with none.  The blanks of [str.split] and [str.isspace] are
    U+0009 to U+000D, U+001C to U+0020, U+0085, U+00A0, U+1680, U+2000
    to U+200A, U+2028, U+2029, U+202F, U+205F and U+3000. *)
Definition blank_at (s : string) : nat :=
  match s with
  | EmptyString => 0
  | String c1 s1 =>
      if is_space_c c1 then 1
      else
        match s1 with
        | EmptyString => 0
        | String c2 s2 =>
            let b1 := nat_of_ascii c1 in
            let b2 := nat_of_ascii c2 in
            if (b1 =? 194)%nat && ((b2 =? 133)%nat || (b2 =? 160)%nat)
            then 2                           (* U+0085, U+00A0 *)
            else
              match s2 with
              | EmptyString => 0
              | String c3 _ =>
                  let b3 := nat_of_ascii c3 in
                  if (b1 =? 225)%nat && (b2 =? 154)%nat && (b3 =? 128)%nat
                  then 3                     (* U+1680 *)
                  else if (b1 =? 226)%nat && (b2 =? 128)%nat
                          && (code_in 128 138 c3 || code_in 168 169 c3
                              || (b3 =? 175)%nat)
                  then 3      (* U+2000 to U+200A, U+2028, U+2029, U+202F *)
                  else if (b1 =? 226)%nat && (b2 =? 129)%nat
                          && (b3 =? 159)%nat
                  then 3                     (* U+205F *)
                  else if (b1 =? 227)%nat && (b2 =? 128)%nat
                          && (b3 =? 128)%nat
                  then 3                     (* U+3000 *)
                  else 0
              end
        end
  end.

(** [s.split()]: the maximal runs of characters that are not blanks, in
    order.  [cur] is the word being read, [skip] the number of bytes of
    the blank being passed that are still ahead. *)
Fixpoint split_aux (s cur : string) (skip : nat) : list string :=
  match s with
  | EmptyString =>
      match cur with EmptyString => [] | _ => [cur] end
  | String c s' =>
      match skip with
      | S k => split_aux s' cur k
      | O =>
          match blank_at s with
          | O => split_aux s' (cur ++ String c EmptyString) 0
          | S k =>
              match cur with
              | EmptyString => split_aux s' EmptyString k
              | _ => cur :: split_aux s' EmptyString k
              end
          end
      end
  end.

Definition split (s : string) : list string := split_aux s EmptyString 0.

(** A byte that continues a code point: 10xxxxxx. *)
Definition is_continuation_c : ascii -> bool := code_in 128 191.

(** [len(s)]: the number of code points, that is, of the bytes that
    start one. *)
Fixpoint len (s : string) : nat :=
  match s with
  | EmptyString => 0
  | String c s' => (if is_continuation_c c then 0 else 1) + len s'
  end.

(** Python truthiness of a string. *)
Definition truthy (s : string) : bool :=
  match s with EmptyString => false | _ => true end.

(** The double quote, as a one-character string. *)
Definition dq : string := String (ascii_of_nat 34) EmptyString.

End PyStr.

(* ===================================================================== *)
(** ** Exceptions and the effect monad *)
(* ===================================================================== *)

(** The exception classes that occur.  All of them derive from
    [Exception]; [ReadTimeout] and [ConnectTimeout] are the two httpx
    timeouts met while talking to a server, [ConnectError] stands for the
    other transport failures. *)
Inductive pyexn : Type :=
| ReadTimeout
| ConnectTimeout
| ConnectError
| JSONDecodeError
| KeyError
| TypeError
| IndexError.

Definition is_ReadTimeout (e : pyexn) : bool :=
  match e with ReadTimeout => true | _ => false end.

Inductive result (A : Type) : Type :=
| Ret (a : A)
| Raise (e : pyexn).
Arguments Ret {A} a.
Arguments Raise {A} e.

Section Monad.
Context {St : Type}.

(** A computation reads and writes the state; the state it leaves is
    kept when it raises. *)
Definition M (A : Type) : Type := St -> result A * St.

Definition ret {A} (a : A) : M A := fun s => (Ret a, s).
Definition raise {A} (e : pyexn) : M A := fun s => (Raise e, s).

Definition bind {A B} (m : M A) (k : A -> M B) : M B :=
  fun s =>
    match m s with
    | (Ret a, s') => k a s'
    | (Raise e, s') => (Raise e, s')
    end.

(** [try: m  except <handles>: h]. *)
Definition try_except {A} (m : M A) (handles : pyexn -> bool)
    (h : pyexn -> M A) : M A :=
  fun s =>
    match m s with
    | (Ret a, s') => (Ret a, s')
    | (Raise e, s') => if handles e then h e s' else (Raise e, s')
    end.

Definition lift_result {A} (r : result A) : M A := fun s => (r, s).
Definition get_state : M St := fun s => (Ret s, s).
Definition modify_state (f : St -> St) : M unit := fun s => (Ret tt, f s).
End Monad.

Declare Scope py_scope.
Delimit Scope py_scope with py.
Notation "x <- m ;; k" := (bind m (fun x => k))
  (at level 61, m at next level, right associativity) : py_scope.
Notation "m ;;; k" := (bind m (fun _ => k))
  (at level 61, right associativity) : py_scope.

Definition except_Exception (e : pyexn) : bool := true.

(* ===================================================================== *)
(** ** JSON values and the dynamic operations applied to them *)
(* ===================================================================== *)

Module Json.

(** What [response.json()] returns.  A float keeps its literal; nothing
    below computes with it. *)
Inductive json : Type :=
| JNull
| JBool (b : bool)
| JInt (z : Z)
| JFloat (literal : string)
| JStr (s : string)
| JArr (items : list json)
| JObj (fields : list (string * json)).

Fixpoint assoc {V : Type} (k : string) (d : list (string * V)) : option V :=
  match d with
  | [] => None
  | (k', v) :: d' => if String.eqb k k' then Some v else assoc k d'
  end.

Fixpoint chars (s : string) : list json :=
  match s with
  | EmptyString => []
  | String c s' => JStr (String c EmptyString) :: chars s'
  end.

(** [for k in v]: a dict yields its keys, a list its items, a string its
    characters; nothing else is iterable. *)
Definition py_iter (v : json) : result (list json) :=
  match v with
  | JObj fields => Ret (map (fun kv => JStr (fst kv)) fields)
  | JArr items => Ret items
  | JStr s => Ret (chars s)
  | _ => Raise TypeError
  end.

(** [seq[i]] for an integer [i], with Python's negative indices. *)
Definition seq_index {A : Type} (l : list A) (i : Z) : result A :=
  let n := Z.of_nat (List.length l) in
  let j := if (i <? 0)%Z then (i + n)%Z else i in
  if (j <? 0)%Z then Raise IndexError
  else match nth_error l (Z.to_nat j) with
       | Some a => Ret a
       | None => Raise IndexError
       end.

Definition as_index (k : json) : option Z :=
  match k with
  | JInt z => Some z
  | JBool b => Some (if b then 1%Z else 0%Z)
  | _ => None
  end.

(** [container[key]]. *)
Definition py_getitem (container key : json) : result json :=
  match container with
  | JObj fields =>
      match key with
      | JStr s =>
          match assoc s fields with
          | Some v => Ret v
          | None => Raise KeyError
          end
      | JArr _ | JObj _ => Raise TypeError (* unhashable key *)
      | _ => Raise KeyError
      end
  | JArr items =>
      match as_index key with
      | Some i => seq_index items i
      | None => Raise TypeError
      end
  | JStr s =>
      match as_index key with
      | Some i => seq_index (chars s) i
      | None => Raise TypeError
      end
  | _ => Raise TypeError
  end.

(** A dict built by a comprehension, in insertion order.  Its keys are
    the values iterated over. *)
Definition pydict : Type := list (json * json).

Definition key_is (s : string) (k : json) : bool :=
  match k with JStr s' => String.eqb s s' | _ => false end.

(** [d.get(s)] for a string [s]. *)
Fixpoint dict_get (s : string) (d : pydict) : option json :=
  match d with
  | [] => None
  | (k, v) :: d' => if key_is s k then Some v else dict_get s d'
  end.

(** [d[s]]. *)
Definition dict_item (s : string) (d : pydict) : result json :=
  match dict_get s d with
  | Some v => Ret v
  | None => Raise KeyError
  end.

End Json.

(* ===================================================================== *)
(** ** ou_sparql_utils.py *)
(* ===================================================================== *)

Module OuSparqlUtils.
Import PyStr Json.
Local Open Scope py_scope.

(** The three query texts.  Only their identity matters here. *)
Inductive query_template : Type :=
| XCRI_QUERY
| XCRI_QUALIFICATIONS_QUERY
| OLDCOURSE_QUERY.

Definition QUERY_FORMAT_DEFAULTS : string := "".

(** [TEMPLATE.format(addfilter=...)]. *)
Record sparql_query : Type := Query {
  q_template : query_template;
  q_addfilter : string
}.

(** The GET request sent by [query_data_open_ac_uk]: the url encodes
    ["{query} offset {offset} limit {limit}"]. *)
Record sparql_request : Type := Request {
  r_query : sparql_query;
  r_offset : Z;
  r_limit : Z
}.

(** Modelled from the spec: the [Result] tuple of [ou_utils], a module
    that is not among the sources: [{code, title, url}], url optional. *)
Record Result : Type := mkResult {
  code : string;
  title : json;
  url : option json
}.

Inductive loglevel : Type := INFO | WARNING | ERROR.

(** A fragment of a printed or logged line. *)
Inductive frag : Type :=
| FStr (s : string)
| FInt (z : Z)
| FBool (b : bool)
| FExn (e : pyexn)
| FDict (d : pydict).

Inductive event : Type :=
| EvLog (level : loglevel) (line : list frag)
| EvGet (req : sparql_request)
| EvPrint (line : list frag)
| EvSleep (milliseconds : Z)
| EvHead (target : string).

Definition trace : Type := list event.

(** What httpx hands back for a GET: [json ()] is the outcome of
    [response.json()]. *)
Record response : Type := Response {
  resp_json : result json
}.

(** What httpx hands back for a HEAD after following redirects. *)
Record head_response : Type := HeadResponse {
  resp_url : string;
  status_code : Z
}.

Section World.
(** The network: the outcome of a request, given all that happened
    before it. *)
Variable httpx_get : trace -> sparql_request -> result response.
Variable httpx_head : trace -> string -> result head_response.

Definition emit (e : event) : M (St := trace) unit :=
  modify_state (fun t => t ++ [e]).

Definition client_get (req : sparql_request) : M response :=
  t <- get_state ;;
  emit (EvGet req) ;;;
  lift_result (httpx_get t req).

Definition head (target : string) : M head_response :=
  t <- get_state ;;
  emit (EvHead target) ;;;
  lift_result (httpx_head t target).

(** [{k: result[k]["value"] for k in result}]. *)
Fixpoint comprehension_loop (result_ : json) (keys : list json)
    : result pydict :=
  match keys with
  | [] => Ret []
  | k :: keys' =>
      match py_getitem result_ k with
      | Raise e => Raise e
      | Ret cell =>
          match py_getitem cell (JStr "value") with
          | Raise e => Raise e
          | Ret v =>
              match comprehension_loop result_ keys' with
              | Raise e => Raise e
              | Ret d => Ret ((k, v) :: d)
              end
          end
      end
  end.

Definition binding_of (result_ : json) : result pydict :=
  match py_iter result_ with
  | Raise e => Raise e
  | Ret keys => comprehension_loop result_ keys
  end.

(** The [for result in bindings] loop: [retval] as it stands when the
    loop ends, and the exception that ended it, if any. *)
Fixpoint append_loop (bindings : list json) (retval : list pydict)
    : list pydict * option pyexn :=
  match bindings with
  | [] => (retval, None)
  | result_ :: rest =>
      match binding_of result_ with
      | Raise e => (retval, Some e)
      | Ret d => append_loop rest (retval ++ [d])
      end
  end.

(** The body of the second [try] of [query_data_open_ac_uk]. *)
Definition parse_body (http_result : response)
    : list pydict * option pyexn :=
  let retval := [] in
  match resp_json http_result with
  | Raise e => (retval, Some e)
  | Ret json_ =>
      match py_getitem json_ (JStr "results") with
      | Raise e => (retval, Some e)
      | Ret results =>
          match py_getitem results (JStr "bindings") with
          | Raise e => (retval, Some e)
          | Ret bindings =>
              match py_iter bindings with
              | Raise e => (retval, Some e)
              | Ret items => append_loop items retval
              end
          end
      end
  end.

Definition query_data_open_ac_uk (query : sparql_query) (offset limit : Z)
    : M (list pydict) :=
  let q := Request query offset limit in
  got <- try_except
           (http_result <- client_get q ;; ret (inr http_result))
           is_ReadTimeout
           (fun _ =>
              emit (EvLog WARNING [FStr "data.open.ac.uk timeout"]) ;;;
              ret (inl [])) ;;
  match got with
  | inl early => ret early
  | inr http_result =>
      match parse_body http_result with
      | (retval, Some _) =>
          emit (EvLog ERROR [FStr "JSON parsing exception"]) ;;;
          ret retval
      | (retval, None) => ret retval
      end
  end.

Definition query_xcri (limit : Z) (addfilter : string)
    : M (list pydict) :=
  courses <- query_data_open_ac_uk (Query XCRI_QUERY addfilter) 0 limit ;;
  qualifications <-
    query_data_open_ac_uk (Query XCRI_QUALIFICATIONS_QUERY addfilter)
      0 limit ;;
  ret (courses ++ qualifications).

Definition query_oldcourses (limit : Z) (addfilter : string)
    : M (list pydict) :=
  query_data_open_ac_uk (Query OLDCOURSE_QUERY addfilter) 0 limit.

(** [Result(code, result["title"], result.get("url"))]. *)
Definition build_result (code_ : string) (result_ : pydict)
    : result Result :=
  match dict_item "title" result_ with
  | Raise e => Raise e
  | Ret t => Ret (mkResult code_ t (dict_get "url" result_))
  end.

Definition filter_of (code_ : string) : string :=
  ("FILTER(?id = " ++ dq ++ code_ ++ dq ++ ")")%string.

Definition find_module_or_qualification (code_ : string)
    : M (option Result) :=
  let code_ := upper code_ in
  let filter_ := filter_of code_ in
  emit (EvLog INFO [FStr "Querying "; FStr code_; FStr " from xcri"]) ;;;
  results_xcri <- query_xcri 1 filter_ ;;
  match results_xcri with
  | result_ :: _ =>
      emit (EvLog INFO [FStr "xcri result: "; FDict result_]) ;;;
      r <- lift_result (build_result code_ result_) ;;
      ret (Some r)
  | [] =>
      emit (EvLog INFO
              [FStr "Querying "; FStr code_; FStr " from oldcourses"]) ;;;
      results_old <- query_oldcourses 1 filter_ ;;
      match results_old with
      | result_ :: _ =>
          emit (EvLog INFO [FStr "oldcourses result: "; FDict result_]) ;;;
          r <- lift_result (build_result code_ result_) ;;
          ret (Some r)
      | [] =>
          emit (EvLog INFO [FStr "Querying "; FStr code_;
                            FStr " from SPARQL returned no results"]) ;;;
          ret None
      end
  end.

(** [not url] for an optional string. *)
Definition falsy_url (url_ : option string) : bool :=
  match url_ with
  | None => true
  | Some u => negb (truthy u)
  end.

Definition url_text (url_ : option string) : string :=
  match url_ with Some u => u | None => "None" end.

(** [is_really_active], with the depth of the recursion bounded by
    [fuel]; the outer [None] means the bound was reached. *)
Fixpoint is_really_active_rec (fuel : nat) (url_ : option string)
    (code_ : string) (retries retry_num : Z)
    : M (option (option bool)) :=
  match fuel with
  | O => ret None
  | S fuel' =>
      if falsy_url url_ then ret (Some None)
      else
        emit (EvPrint [FStr "Trying "; FStr (url_text url_);
                       FStr " -> "]) ;;;
        emit (EvSleep 100) ;;;
        attempt <- try_except
                     (result_ <- head (url_text url_) ;;
                      ret (inr result_))
                     except_Exception
                     (fun e => ret (inl e)) ;;
        match attempt with
        | inl e =>
            emit (EvPrint [FStr "failed ("; FExn e; FStr ")"]) ;;;
            let retry_num := (retry_num + 1)%Z in
            if (retry_num <=? retries)%Z then
              emit (EvPrint [FStr "- retrying ("; FInt retry_num;
                             FStr " / "; FInt retries; FStr ")"]) ;;;
              is_really_active_rec fuel' url_ code_ retries retry_num
            else
              let really_active := false in
              ret (Some (Some really_active))
        | inr result_ =>
            let correct_redirect :=
              str_in (lower code_) (lower (resp_url result_)) in
            let really_active :=
              correct_redirect && (status_code result_ =? 200)%Z in
            emit (EvPrint [FBool really_active; FStr " (";
                           FStr (resp_url result_); FStr ", ";
                           FInt (status_code result_); FStr ")"]) ;;;
            ret (Some (Some really_active))
        end
  end.

(** One level of recursion per attempt: at most [retries - retry_num]
    retries follow the first attempt. *)
Definition attempts_bound (retries retry_num : Z) : nat :=
  S (Z.to_nat (retries - retry_num)).

Definition is_really_active (url_ : option string) (code_ : string)
    (retries retry_num : Z) : M (option (option bool)) :=
  is_really_active_rec (attempts_bound retries retry_num)
    url_ code_ retries retry_num.

End World.

End OuSparqlUtils.

(* ===================================================================== *)
(** ** The recency cache of pylru *)
(* ===================================================================== *)

Module Pylru.

Section Cache.
Context {V : Type}.

(** Modelled from the spec: [pylru.lrucache], a library that is not
    among the sources: a bounded-capacity recency structure with
    least-recently-used eviction.  [table] lists the entries from the
    most recently touched to the least recently touched.  Testing
    membership touches nothing; reading and writing an entry make it
    the most recent one; writing a new key into a full cache drops the
    last entry. *)
Record lrucache : Type := LruCache {
  size : nat;
  table : list (Z * V)
}.

Definition new (size_ : nat) : lrucache := LruCache size_ [].

Fixpoint lookup (k : Z) (t : list (Z * V)) : option V :=
  match t with
  | [] => None
  | (k', v) :: t' => if (k =? k')%Z then Some v else lookup k t'
  end.

Fixpoint remove (k : Z) (t : list (Z * V)) : list (Z * V) :=
  match t with
  | [] => []
  | (k', v) :: t' =>
      if (k =? k')%Z then remove k t' else (k', v) :: remove k t'
  end.

(** [k in cache]. *)
Definition contains (k : Z) (c : lrucache) : bool :=
  match lookup k (table c) with Some _ => true | None => false end.

(** [cache[k]]. *)
Definition getitem (k : Z) (c : lrucache) : result V * lrucache :=
  match lookup k (table c) with
  | Some v => (Ret v, LruCache (size c) ((k, v) :: remove k (table c)))
  | None => (Raise KeyError, c)
  end.

(** [cache[k] = v]. *)
Definition setitem (k : Z) (v : V) (c : lrucache) : lrucache :=
  if contains k c then
    LruCache (size c) ((k, v) :: remove k (table c))
  else if (List.length (table c) <? size c)%nat then
    LruCache (size c) ((k, v) :: table c)
  else
    LruCache (size c) ((k, v) :: removelast (table c)).

End Cache.

Arguments lrucache V : clear implicits.

End Pylru.

(* ===================================================================== *)
(** ** oumodulesbot.py *)
(* ===================================================================== *)

Module OUModulesBotPlugin.
Import PyStr.
Local Open Scope py_scope.

(** *** The two regular expressions *)

(** The longest prefix of [s] of at most [n] characters that all
    satisfy [p], and what follows it. *)
Fixpoint span_upto (p : ascii -> bool) (n : nat) (s : string)
    : string * string :=
  match n, s with
  | S n', String c s' =>
      if p c then
        let (a, b) := span_upto p n' s' in (String c a, b)
      else (EmptyString, s)
  | _, _ => (EmptyString, s)
  end.

(** The text before the last occurrence of [pat] in [s]. *)
Fixpoint before_last (pat s : string) : option string :=
  match s with
  | EmptyString => if startswith pat s then Some EmptyString else None
  | String c s' =>
      match before_last pat s' with
      | Some pre => Some (String c pre)
      | None => if startswith pat s then Some EmptyString else None
      end
  end.

(** The text up to the first line feed: what [.*] can span. *)
Fixpoint line_of (s : string) : string :=
  match s with
  | EmptyString => EmptyString
  | String c s' =>
      if Ascii.eqb c (ascii_of_nat 10) then EmptyString
      else String c (line_of s')
  end.

(** A matcher tries a pattern at the start of a text and gives the text
    that [findall] reports and the length of the whole match. *)
Definition matcher : Type := string -> option (string * nat).

(** [EMBED_RE = r'![a-zA-Z]{1,3}[0-9]{1,3}'] at the start of [s].  The
    two classes are disjoint, so the greedy choice is the only one that
    can succeed. *)
Definition EMBED_RE : matcher := fun s =>
  match s with
  | String c s1 =>
      if Ascii.eqb c "!" then
        let (letters, s2) := span_upto is_alpha_c 3 s1 in
        let (digits, _) := span_upto is_digit_c 3 s2 in
        match letters, digits with
        | String _ _, String _ _ =>
            let w := String c (letters ++ digits)%string in
            Some (w, String.length w)
        | _, _ => None
        end
      else None
  | EmptyString => None
  end.

Definition TITLE_OPEN : string := "<title>".
Definition TITLE_CLOSE : string :=
  " - Open University Digital Archive</title>".

(** [MODULE_RE] at the start of [s]: the opening tag, one to three
    letters, one to three digits, a blank, a group made of the longest
    run of characters other than a line feed that leaves room for the
    closing text, and the closing text.  The group is what [findall]
    reports. *)
Definition MODULE_RE : matcher := fun s =>
  if startswith TITLE_OPEN s then
    let s1 := drop (String.length TITLE_OPEN) s in
    let (letters, s2) := span_upto is_alpha_c 3 s1 in
    let (digits, s3) := span_upto is_digit_c 3 s2 in
    match letters, digits, s3 with
    | String _ _, String _ _, String sp s4 =>
        if Ascii.eqb sp " " then
          match before_last TITLE_CLOSE (line_of s4) with
          | Some group =>
              Some (group,
                    String.length TITLE_OPEN + String.length letters
                    + String.length digits + 1 + String.length group
                    + String.length TITLE_CLOSE)
          | None => None
          end
        else None
    | _, _, _ => None
    end
  else None.

(** [re.findall]: leftmost matches, none overlapping.  [skip] counts the
    characters of the last match that are still to be passed. *)
Fixpoint findall_aux (m : matcher) (s : string) (skip : nat)
    : list string :=
  match s with
  | EmptyString => []
  | String _ s' =>
      match skip with
      | S k => findall_aux m s' k
      | O =>
          match m s with
          | Some (w, len) => w :: findall_aux m s' (len - 1)
          | None => findall_aux m s' 0
          end
      end
  end.

Definition findall (m : matcher) (s : string) : list string :=
  findall_aux m s 0.

(** The body of a page as [requests] hands it out: [response.content],
    of type [bytes]. *)
Definition bytes : Type := list Byte.byte.

(** [pattern.findall(data)] for a pattern compiled from a [str] and
    [data] of type [bytes]: [re] refuses the mix with a [TypeError]
    (cannot use a string pattern on a bytes-like object) before it reads
    the data. *)
Definition findall_in_bytes (m : matcher) (data : bytes)
    : result (list string) :=
  Raise TypeError.

(** *** Chat objects *)

(** A channel of the chat service.  As an object it counts as true in a
    test such as [if modify_c:]. *)
Record Channel : Type := mkChannel { channel_id : Z }.

Record Message : Type := mkMessage {
  id : Z;
  content : string
}.

(** A gateway event; [msg] is the attribute that only command events
    carry. *)
Record Event : Type := mkEvent {
  message : Message;
  channel : Channel;
  msg : option Message
}.

Record EmbedField : Type := mkField {
  name : string;
  value : string;
  inline : bool
}.

(** [MessageEmbed]: its fields, in the order added. *)
Definition MessageEmbed : Type := list EmbedField.

Inductive event : Type :=
| EvRequest (target : string)
| EvReply (reply_to : Z) (content_ : string) (embed : option MessageEmbed)
| EvModify (channel_ message_ : Z) (content_ : string)
    (embed : MessageEmbed).

Definition trace : Type := list event.

Record state : Type := mkState {
  embeds_cache : Pylru.lrucache (Channel * Message);
  effects : trace
}.

Definition COMMAND_NAME : string := "modulename".
Definition MODULES_COUNT_LIMIT : nat := 5.

(** [embeds_cache = pylru.lrucache(1000)]. *)
Definition initial_state : state := mkState (Pylru.new 1000) [].

Section World.
(** [str.upper] and [str.isalnum], which follow the tables of Unicode. *)
Variable str_upper : string -> string.
Variable str_isalnum : string -> bool.
(** The archive site: the body of the page, or the exception that
    [requests.get] raises. *)
Variable requests_get : trace -> string -> result bytes.
(** The chat service: the message it creates for a reply.  Its calls are
    taken to succeed. *)
Variable message_reply :
  trace -> Message -> string -> option MessageEmbed -> Message.

Definition emit (e : event) : M (St := state) unit :=
  modify_state (fun s => mkState (embeds_cache s) (effects s ++ [e])).

Definition archive_url (code : string) : string :=
  ("http://www.open.ac.uk/library/digital-archive/module/xcri:"
   ++ code)%string.

Definition get (target : string) : M bytes :=
  s <- get_state ;;
  emit (EvRequest target) ;;;
  lift_result (requests_get (effects s) target).

(** [get_module_title].  The [try] covers the request only; the
    pattern is applied after it, to the [bytes] of the body. *)
Definition get_module_title (code : string) : M (option string) :=
  fetched <- try_except
               (html <- get (archive_url code) ;; ret (Some html))
               except_Exception
               (fun _ => ret None) ;;
  match fetched with
  | None => ret None
  | Some html =>
      title <- lift_result (findall_in_bytes MODULE_RE html) ;;
      ret (match title with t :: _ => Some t | [] => None end)
  end.

(** [if title:] for an optional string. *)
Definition found (title : option string) : bool :=
  match title with Some t => truthy t | None => false end.

Definition title_text (title : option string) : string :=
  match title with Some t => t | None => "None" end.

(** [' * {} '.format(title)]. *)
Definition field_value (title : string) : string :=
  (" * " ++ title ++ " ")%string.

(** The loop that fills the embed of a reply with several modules. *)
Fixpoint add_fields (embed : MessageEmbed)
    (modules : list (string * string)) : MessageEmbed :=
  match modules with
  | [] => embed
  | (code, title) :: rest =>
      add_fields (embed ++ [mkField code (field_value title) true]) rest
  end.

Definition cache_contains (k : Z) : M bool :=
  s <- get_state ;; ret (Pylru.contains k (embeds_cache s)).

Definition cache_getitem (k : Z) : M (Channel * Message) :=
  fun s =>
    let (r, c) := Pylru.getitem k (embeds_cache s) in
    (r, mkState c (effects s)).

Definition cache_setitem (k : Z) (v : Channel * Message) : M unit :=
  modify_state
    (fun s => mkState (Pylru.setitem k v (embeds_cache s)) (effects s)).

Definition reply (reply_to : Message) (content_ : string)
    (embed : option MessageEmbed) : M Message :=
  s <- get_state ;;
  emit (EvReply (id reply_to) content_ embed) ;;;
  ret (message_reply (effects s) reply_to content_ embed).

Definition channels_messages_modify (channel_ message_ : Z)
    (content_ : string) (embed : MessageEmbed) : M unit :=
  emit (EvModify channel_ message_ content_ embed).

Definition post_modules (event_ : Event) (reply_to : Message)
    (modules : list (string * string)) : M unit :=
  let modify_ := None in
  in_cache <- cache_contains (id (message event_)) ;;
  modify_ <- (if in_cache : bool then
                cm <- cache_getitem (id (message event_)) ;;
                ret (Some cm)
              else ret modify_) ;;
  let embed := [] in
  ce <- (if (1 <? List.length modules)%nat then
           ret (EmptyString, add_fields embed modules)
         else
           match nth_error modules 0 with
           | None => raise IndexError
           | Some (code, title) =>
               ret ((code ++ ": " ++ title)%string, embed)
           end) ;;
  let (content_, embed) := ce : string * MessageEmbed in
  match modify_ with
  | Some (modify_c, modify_m) =>
      channels_messages_modify (channel_id modify_c) (id modify_m)
        content_ embed
  | None =>
      sent <- reply reply_to content_
                (if (1 <? List.length modules)%nat then Some embed
                 else None) ;;
      cache_setitem (id reply_to) (channel event_, sent)
  end.

(** The state of the [for] loops: [modules] and [any_found]. *)
Definition acc : Type := list (string * string) * bool.

(** One round of the loop of [command_modulename]. *)
Definition command_step (a : acc) (code : string) : M acc :=
  let (modules, any_found) := a in
  let code := remove_char "!" (str_upper code) in
  if str_isalnum code && ((4 <=? len code)%nat && (len code <=? 6)%nat)
  then
    title <- get_module_title code ;;
    if found title then ret (modules ++ [(code, title_text title)], true)
    else
      (* replies.append((code, 'not found')): [replies] is local to
         the round and never read *)
      let replies := [(code, "not found")] in
      ret (modules, any_found)
  else ret (modules, any_found).

(** One round of the loop of [do_embeds]. *)
Definition embed_step (a : acc) (module : string) : M acc :=
  let (modules, any_found) := a in
  title <- get_module_title (drop 1 module) ;;
  if found title
  then ret (modules ++ [(str_upper (drop 1 module), title_text title)],
            true)
  else ret (modules, any_found).

Fixpoint for_each {A : Type} (body : acc -> A -> M (St := state) acc)
    (items : list A) (a : acc) : M acc :=
  match items with
  | [] => ret a
  | x :: rest => a' <- body a x ;; for_each body rest a'
  end.

Definition command_modulename (event_ : Event) (message_ : Message)
    : M unit :=
  let codes := skipn 1 (split (content message_)) in
  a <- for_each command_step (firstn MODULES_COUNT_LIMIT codes)
         ([], false) ;;
  let (modules, any_found) := a : acc in
  if any_found || (List.length codes =? 1)%nat then
    post_modules event_ message_ modules
  else ret tt.

Definition do_embeds (event_ : Event) : M unit :=
  let message_ :=
    match msg event_ with Some m => m | None => message event_ end in
  if negb (truthy (content message_)) then ret tt
  else if startswith ("!" ++ COMMAND_NAME)%string (content message_) then
    command_modulename event_ message_
  else
    a <- for_each embed_step
           (firstn MODULES_COUNT_LIMIT
              (findall EMBED_RE (content (message event_))))
           ([], false) ;;
    let (modules, any_found) := a : acc in
    if any_found then post_modules event_ message_ modules
    else ret tt.

Definition on_message_update (event_ : Event) : M unit :=
  if negb (truthy (content (message event_))) then ret tt
  else
    let expression := ("!" ++ COMMAND_NAME)%string in
    if startswith expression (content (message event_)) then
      command_modulename event_ (message event_)
    else do_embeds event_.

Definition on_message_create (event_ : Event) : M unit :=
  do_embeds event_.

End World.

End OUModulesBotPlugin.

(* ===================================================================== *)
(** ** Properties *)
(* ===================================================================== *)

(** *** Strings *)

Module PyStrFacts.
Import PyStr.

(** The reading of the specification: [needle] occurs in [hay] up to the
    case of the letters. *)
Definition contains_ignoring_case (needle hay : string) : Prop :=
  exists pre mid post : string,
    hay = (pre ++ mid ++ post)%string /\ lower mid = lower needle.

Lemma startswith_spec (p s : string) :
  startswith p s = true <-> exists q, s = (p ++ q)%string.
Proof.
  revert s. induction p as [|a p IH]; intros s; simpl.
  - split; [intros _; now exists s | reflexivity].
  - destruct s as [|b s].
    + split; [discriminate | intros [q Hq]; discriminate].
    + rewrite andb_true_iff, Ascii.eqb_eq, IH. split.
      * intros [-> [q ->]]. now exists q.
      * intros [q Hq]. injection Hq as -> ->. split; [reflexivity | now exists q].
Qed.

Lemma str_in_spec (needle hay : string) :
  str_in needle hay = true <->
  exists pre post, hay = (pre ++ needle ++ post)%string.
Proof.
  induction hay as [|c hay IH].
  - simpl. rewrite orb_false_r, startswith_spec. split.
    + intros [q ->]. now exists EmptyString, q.
    + intros [pre [post H]]. destruct pre; [now exists post | discriminate].
  - cbn [str_in]. rewrite orb_true_iff, IH, startswith_spec. split.
    + intros [[q ->] | [pre [post ->]]].
      * now exists EmptyString, q.
      * now exists (String c pre), post.
    + intros [pre [post H]]. destruct pre as [|d pre].
      * left. now exists post.
      * right. injection H as -> ->. now exists pre, post.
Qed.

Lemma map_str_app (f : ascii -> ascii) (a b : string) :
  map_str f (a ++ b) = (map_str f a ++ map_str f b)%string.
Proof. induction a as [|c a IH]; simpl; [reflexivity | now rewrite IH]. Qed.

(** A split of the image of [h] comes from a split of [h]. *)
Lemma map_str_split (f : ascii -> ascii) (h a b : string) :
  map_str f h = (a ++ b)%string ->
  exists x y, h = (x ++ y)%string /\ map_str f x = a /\ map_str f y = b.
Proof.
  revert h. induction a as [|c a IH]; intros h H.
  - exists EmptyString, h. auto.
  - destruct h as [|d h]; [discriminate|].
    simpl in H. injection H as Hc Hh.
    destruct (IH h Hh) as [x [y [-> [Hx Hy]]]].
    exists (String d x), y. simpl. now rewrite Hc, Hx, Hy.
Qed.

(** [code.lower() in url.lower()] decides the occurrence up to case. *)
Lemma lower_in_lower (needle hay : string) :
  str_in (lower needle) (lower hay) = true <->
  contains_ignoring_case needle hay.
Proof.
  unfold contains_ignoring_case, lower. rewrite str_in_spec. split.
  - intros [pre [post H]].
    destruct (map_str_split _ _ _ _ H) as [x [rest [-> [Hx Hrest]]]].
    destruct (map_str_split _ _ _ _ Hrest) as [m [y [-> [Hm Hy]]]].
    now exists x, m, y.
  - intros [pre [mid [post [-> Hmid]]]].
    exists (map_str lower_c pre), (map_str lower_c post).
    now rewrite !map_str_app, Hmid.
Qed.

End PyStrFacts.

(** *** The liveness check *)

Module Liveness.
Import PyStr PyStrFacts Json OuSparqlUtils.

(** The number of HEAD requests in a trace. *)
Definition heads (t : trace) : nat :=
  List.length (filter (fun e => match e with EvHead _ => true | _ => false end) t).

(** The value computed from a response in the [else] branch. *)
Definition verdict (code_ : string) (r : head_response) : bool :=
  str_in (lower code_) (lower (resp_url r)) && (status_code r =? 200)%Z.

Definition trying (u : string) : list event :=
  [EvPrint [FStr "Trying "; FStr u; FStr " -> "]; EvSleep 100].

Definition failed (e : pyexn) : event :=
  EvPrint [FStr "failed ("; FExn e; FStr ")"].

Definition retrying (retry_num retries : Z) : event :=
  EvPrint [FStr "- retrying ("; FInt retry_num; FStr " / "; FInt retries;
           FStr ")"].

Definition report (code_ : string) (r : head_response) : event :=
  EvPrint [FBool (verdict code_ r); FStr " ("; FStr (resp_url r);
           FStr ", "; FInt (status_code r); FStr ")"].

Lemma heads_app (t1 t2 : trace) : heads (t1 ++ t2) = heads t1 + heads t2.
Proof. unfold heads. now rewrite filter_app, length_app. Qed.

Section Facts.
Variable httpx_head : trace -> string -> result head_response.

Local Abbreviation rec := (is_really_active_rec httpx_head).

(** One attempt, for a url that is checked. *)
Lemma rec_step (fuel : nat) (url_ : option string) (code_ : string)
    (retries retry_num : Z) (t : trace) :
  falsy_url url_ = false ->
  let u := url_text url_ in
  let t1 := t ++ trying u in
  rec (S fuel) url_ code_ retries retry_num t =
  match httpx_head t1 u with
  | Ret r => (Ret (Some (Some (verdict code_ r))),
              t1 ++ [EvHead u; report code_ r])
  | Raise e =>
      if (retry_num + 1 <=? retries)%Z then
        rec fuel url_ code_ retries (retry_num + 1)%Z
          (t1 ++ [EvHead u; failed e; retrying (retry_num + 1) retries])
      else (Ret (Some (Some false)), t1 ++ [EvHead u; failed e])
  end.
Proof.
  intros Hurl u t1. cbn [is_really_active_rec]. rewrite Hurl.
  subst t1 u. unfold trying, report, verdict, failed, retrying.
  cbv beta iota zeta delta [bind try_except head emit modify_state
    get_state lift_result ret except_Exception].
  rewrite <- !app_assoc. cbn [app].
  destruct (httpx_head _ _) as [r | e].
  - now rewrite <- !app_assoc.
  - destruct (retry_num + 1 <=? retries)%Z; now rewrite <- !app_assoc.
Qed.

Lemma rec_falsy (fuel : nat) (url_ : option string) (code_ : string)
    (retries retry_num : Z) (t : trace) :
  falsy_url url_ = true ->
  rec (S fuel) url_ code_ retries retry_num t = (Ret (Some None), t).
Proof. intros H. cbn [is_really_active_rec]. now rewrite H. Qed.

Lemma attempts_bound_next (retries retry_num : Z) :
  (retry_num + 1 <=? retries)%Z = true ->
  attempts_bound retries retry_num =
  S (attempts_bound retries (retry_num + 1)).
Proof.
  intros H. apply Z.leb_le in H. unfold attempts_bound.
  f_equal. rewrite <- Z2Nat.inj_succ by lia. f_equal. lia.
Qed.

(** The recursion of the source, with no bound left: the depth
    allowed is always enough. *)
Lemma is_really_active_unfold (url_ : option string) (code_ : string)
    (retries retry_num : Z) (t : trace) :
  is_really_active httpx_head url_ code_ retries retry_num t =
  if falsy_url url_ then (Ret (Some None), t)
  else
    let u := url_text url_ in
    let t1 := t ++ trying u in
    match httpx_head t1 u with
    | Ret r => (Ret (Some (Some (verdict code_ r))),
                t1 ++ [EvHead u; report code_ r])
    | Raise e =>
        if (retry_num + 1 <=? retries)%Z then
          is_really_active httpx_head url_ code_ retries (retry_num + 1)%Z
            (t1 ++ [EvHead u; failed e; retrying (retry_num + 1) retries])
        else (Ret (Some (Some false)), t1 ++ [EvHead u; failed e])
    end.
Proof.
  unfold is_really_active at 1. unfold attempts_bound at 1.
  destruct (falsy_url url_) eqn:Hurl.
  - now apply rec_falsy.
  - rewrite rec_step by assumption. cbv zeta.
    destruct (httpx_head _ _) as [r | e]; [reflexivity|].
    destruct (retry_num + 1 <=? retries)%Z eqn:Hle; [|reflexivity].
    unfold is_really_active.
    pose proof (attempts_bound_next _ _ Hle) as Hb.
    unfold attempts_bound in Hb at 1. injection Hb as Hb. now rewrite Hb.
Qed.

(** The check always returns: the bound on the depth is never met. *)
Lemma is_really_active_returns (url_ : option string) (code_ : string)
    (retries : Z) :
  forall (n : nat) (retry_num : Z) (t : trace),
    Z.to_nat (retries - retry_num) = n ->
    exists (r : option bool) (t' : trace),
      is_really_active httpx_head url_ code_ retries retry_num t
      = (Ret (Some r), t').
Proof.
  intros n. induction n as [|n IH]; intros retry_num t Hn;
    rewrite is_really_active_unfold; cbv zeta;
    (destruct (falsy_url url_); [now eexists; eexists|]);
    (destruct (httpx_head _ _) as [r | e]; [now eexists; eexists|]).
  - assert ((retry_num + 1 <=? retries)%Z = false) as ->
        by (apply Z.leb_gt; lia).
    now eexists; eexists.
  - assert ((retry_num + 1 <=? retries)%Z = true) as ->
        by (apply Z.leb_le; lia).
    apply IH. lia.
Qed.

Lemma heads_trying (t : trace) (u : string) :
  heads (t ++ trying u) = heads t.
Proof. rewrite heads_app. cbn. lia. Qed.

(** Every attempt fails: one request, then as many retries as
    [retries - retry_num] allows, then [False]. *)
Lemma all_attempts_fail (url_ : option string) (code_ : string)
    (retries : Z) :
  falsy_url url_ = false ->
  (forall t', exists e, httpx_head t' (url_text url_) = Raise e) ->
  forall (n : nat) (retry_num : Z) (t : trace),
    Z.to_nat (retries - retry_num) = n ->
    exists t',
      is_really_active httpx_head url_ code_ retries retry_num t
      = (Ret (Some (Some false)), t')
      /\ heads t' = heads t + 1 + n.
Proof.
  intros Hurl Hfail n. induction n as [|n IH]; intros retry_num t Hn;
    rewrite is_really_active_unfold, Hurl; cbv zeta;
    destruct (Hfail (t ++ trying (url_text url_))) as [e ->].
  - assert ((retry_num + 1 <=? retries)%Z = false) as -> by (apply Z.leb_gt; lia).
    eexists. split; [reflexivity|].
    rewrite heads_app, heads_trying. cbn. lia.
  - assert ((retry_num + 1 <=? retries)%Z = true) as -> by (apply Z.leb_le; lia).
    destruct (IH (retry_num + 1)%Z
                ((t ++ trying (url_text url_)) ++
                 [EvHead (url_text url_); failed e;
                  retrying (retry_num + 1) retries]))
      as [t' [Hrun Hheads]]; [lia|].
    exists t'. split; [exact Hrun|].
    rewrite Hheads, heads_app, heads_trying. cbn. lia.
Qed.

(** [k] failures, none beyond the retries allowed, then a response:
    the value is the one computed from that response. *)
Lemma success_after_failures (url_ : option string) (code_ : string)
    (retries : Z) (r : head_response) :
  falsy_url url_ = false ->
  forall (k : nat) (retry_num : Z) (t : trace),
    ((retry_num + Z.of_nat k <= retries)%Z \/ k = 0) ->
    (forall j t', j < k -> heads t' = heads t + j ->
                  exists e, httpx_head t' (url_text url_) = Raise e) ->
    (forall t', heads t' = heads t + k ->
                httpx_head t' (url_text url_) = Ret r) ->
    exists t',
      is_really_active httpx_head url_ code_ retries retry_num t
      = (Ret (Some (Some (verdict code_ r))), t')
      /\ heads t' = heads t + k + 1.
Proof.
  intros Hurl k. induction k as [|k IH]; intros retry_num t Hk Hfail Hok;
    rewrite is_really_active_unfold, Hurl; cbv zeta.
  - rewrite (Hok (t ++ trying (url_text url_)))
      by (rewrite heads_trying; lia).
    eexists. split; [reflexivity|].
    rewrite heads_app, heads_trying. cbn. lia.
  - destruct (Hfail 0 (t ++ trying (url_text url_))) as [e ->];
      [lia | rewrite heads_trying; lia |].
    assert ((retry_num + 1 <=? retries)%Z = true) as ->
        by (apply Z.leb_le; lia).
    set (t2 := (t ++ trying (url_text url_)) ++
               [EvHead (url_text url_); failed e;
                retrying (retry_num + 1) retries]).
    assert (Ht2 : heads t2 = S (heads t))
      by (unfold t2; rewrite heads_app, heads_trying; cbn; lia).
    destruct (IH (retry_num + 1)%Z t2) as [t' [Hrun Hheads]].
    + left. lia.
    + intros j t' Hj Ht'. apply (Hfail (S j) t'); lia.
    + intros t' Ht'. apply Hok. lia.
    + exists t'. split; [exact Hrun | lia].
Qed.

(** A run that checks the url ends with a request and the line
    printed about it; the value returned is decided by the outcome of
    that request. *)
Lemma last_request_decides (url_ : option string) (code_ : string)
    (retries : Z) :
  falsy_url url_ = false ->
  forall (n : nat) (retry_num : Z) (t : trace),
    Z.to_nat (retries - retry_num) = n ->
    exists pre line,
      snd (is_really_active httpx_head url_ code_ retries retry_num t)
      = t ++ pre ++ [EvHead (url_text url_); line]
      /\ fst (is_really_active httpx_head url_ code_ retries retry_num t)
         = match httpx_head (t ++ pre) (url_text url_) with
           | Ret r => Ret (Some (Some (verdict code_ r)))
           | Raise _ => Ret (Some (Some false))
           end.
Proof.
  intros Hurl n. induction n as [|n IH]; intros retry_num t Hn;
    rewrite is_really_active_unfold, Hurl; cbv zeta;
    destruct (httpx_head (t ++ trying (url_text url_)) (url_text url_))
      as [r | e] eqn:Hhead.
  - exists (trying (url_text url_)), (report code_ r). cbn [fst snd].
    rewrite Hhead. split; [now rewrite <- app_assoc | reflexivity].
  - assert ((retry_num + 1 <=? retries)%Z = false) as ->
        by (apply Z.leb_gt; lia).
    exists (trying (url_text url_)), (failed e). cbn [fst snd].
    rewrite Hhead. split; [now rewrite <- app_assoc | reflexivity].
  - exists (trying (url_text url_)), (report code_ r). cbn [fst snd].
    rewrite Hhead. split; [now rewrite <- app_assoc | reflexivity].
  - assert ((retry_num + 1 <=? retries)%Z = true) as ->
        by (apply Z.leb_le; lia).
    destruct (IH (retry_num + 1)%Z
                ((t ++ trying (url_text url_)) ++
                 [EvHead (url_text url_); failed e;
                  retrying (retry_num + 1) retries]))
      as [pre [line [Hsnd Hfst]]]; [lia|].
    exists (trying (url_text url_) ++
            [EvHead (url_text url_); failed e;
             retrying (retry_num + 1) retries] ++ pre), line.
    rewrite Hsnd, Hfst. split.
    + now rewrite <- !app_assoc.
    + now rewrite <- !app_assoc.
Qed.

End Facts.

Lemma falsy_url_Some (u : string) :
  u <> EmptyString -> falsy_url (Some u) = false.
Proof. destruct u; [congruence | reflexivity]. Qed.

(** A server that never answers, and one that answers from the third
    request on. *)
Definition qualification_page : head_response :=
  HeadResponse "http://www.open.ac.uk/courses/qualifications/B31" 200.

Definition server_down : trace -> string -> result head_response :=
  fun _ _ => Raise ConnectError.

Definition server_up_at (k : nat) : trace -> string -> result head_response :=
  fun t _ => if (heads t <? k)%nat then Raise ConnectTimeout
             else Ret qualification_page.

(** C4. Without a url the check returns [None] at once and sends no
    request.  With a url, when every request fails in transport, the
    check sends one request and [retries] further ones, then returns
    [False], not [None].  When the first [k] requests fail, [k] being at
    most [retries], and the next one is answered, the check returns what
    that answer gives; with [retries = 2] this covers two failures
    followed by a success. *)
Theorem is_really_active_retry_contract
    (httpx_head : trace -> string -> result head_response)
    (code_ : string) (retries : Z) (t : trace) :
  is_really_active httpx_head None code_ retries 0 t = (Ret (Some None), t)
  /\ (forall u : string,
        u <> EmptyString ->
        (forall t', exists e, httpx_head t' u = Raise e) ->
        exists t',
          is_really_active httpx_head (Some u) code_ retries 0 t
          = (Ret (Some (Some false)), t')
          /\ heads t' = heads t + 1 + Z.to_nat retries)
  /\ (forall (u : string) (k : nat) (r : head_response),
        u <> EmptyString ->
        (Z.of_nat k <= retries)%Z ->
        (forall j t', j < k -> heads t' = heads t + j ->
                      exists e, httpx_head t' u = Raise e) ->
        (forall t', heads t' = heads t + k -> httpx_head t' u = Ret r) ->
        exists t',
          is_really_active httpx_head (Some u) code_ retries 0 t
          = (Ret (Some (Some (verdict code_ r))), t')
          /\ heads t' = heads t + k + 1).
Proof.
  split; [|split].
  - rewrite is_really_active_unfold. reflexivity.
  - intros u Hu Hfail.
    apply (all_attempts_fail httpx_head (Some u) code_ retries
             (falsy_url_Some u Hu) Hfail (Z.to_nat retries) 0%Z t).
    f_equal. lia.
  - intros u k r Hu Hk Hfail Hok.
    apply (success_after_failures httpx_head (Some u) code_ retries r
             (falsy_url_Some u Hu) k 0%Z t); [left; lia | exact Hfail | exact Hok].
Qed.

Lemma is_really_active_retry_contract_witness :
  (exists t',
     is_really_active server_down (Some "http://www.open.ac.uk/courses/b31")
       "B31" 2 0 []
     = (Ret (Some (Some false)), t') /\ heads t' = 3)
  /\ (exists t',
        is_really_active (server_up_at 2)
          (Some "http://www.open.ac.uk/courses/b31") "B31" 2 0 []
        = (Ret (Some (Some true)), t') /\ heads t' = 3).
Proof.
  split.
  - apply (proj1 (proj2 (is_really_active_retry_contract server_down
                           "B31" 2 []))).
    + discriminate.
    + intros t'. exists ConnectError. reflexivity.
  - apply (proj2 (proj2 (is_really_active_retry_contract (server_up_at 2)
                           "B31" 2 []))
             "http://www.open.ac.uk/courses/b31" 2 qualification_page).
    + discriminate.
    + lia.
    + intros j t' Hj Ht'. exists ConnectTimeout. unfold server_up_at.
      rewrite Ht'. destruct j as [|[|j]]; [reflexivity | reflexivity | lia].
    + intros t' Ht'. unfold server_up_at. rewrite Ht'. reflexivity.
Defined.

(** C5. For every url and code, when the request of the check is
    answered, be it the first one or the one that ends a series of
    retries, the check returns the value computed from the answer, and
    that value is [True] exactly when the status of the answer is 200
    and the url reached after the redirects contains the code, the case
    of the letters being ignored. *)
Theorem is_really_active_verdict
    (httpx_head : trace -> string -> result head_response)
    (url_ : option string) (code_ : string) (retries retry_num : Z)
    (t : trace) (r : head_response) :
  let u := url_text url_ in
  let run := is_really_active httpx_head url_ code_ retries retry_num t in
  (falsy_url url_ = false ->
   httpx_head (t ++ trying u) u = Ret r ->
   run = (Ret (Some (Some (verdict code_ r))),
          t ++ trying u ++ [EvHead u; report code_ r]))
  /\ (forall (pre : trace) (line : event),
        snd run = t ++ pre ++ [EvHead u; line] ->
        httpx_head (t ++ pre) u = Ret r ->
        fst run = Ret (Some (Some (verdict code_ r))))
  /\ (verdict code_ r = true <->
      status_code r = 200%Z /\ contains_ignoring_case code_ (resp_url r)).
Proof.
  intros u run. subst u run. split; [|split].
  - intros Hurl Hhead. rewrite is_really_active_unfold, Hurl. cbv zeta.
    rewrite Hhead. now rewrite <- app_assoc.
  - intros pre line Hrun Hhead.
    destruct (falsy_url url_) eqn:Hurl.
    + rewrite is_really_active_unfold, Hurl in Hrun. cbn [snd] in Hrun.
      apply (f_equal (@List.length event)) in Hrun.
      rewrite !length_app in Hrun. cbn in Hrun. lia.
    + destruct (last_request_decides httpx_head url_ code_ retries Hurl
                  (Z.to_nat (retries - retry_num)) retry_num t eq_refl)
        as [pre' [line' [Hsnd Hfst]]].
      rewrite Hrun in Hsnd. apply app_inv_head in Hsnd.
      change [EvHead (url_text url_); line]
        with ([EvHead (url_text url_)] ++ [line]) in Hsnd.
      change [EvHead (url_text url_); line']
        with ([EvHead (url_text url_)] ++ [line']) in Hsnd.
      rewrite !app_assoc in Hsnd.
      apply app_inj_tail in Hsnd. destruct Hsnd as [Hsnd _].
      apply app_inj_tail in Hsnd. destruct Hsnd as [Hpre _].
      subst pre'. now rewrite Hhead in Hfst.
  - unfold verdict. rewrite andb_true_iff, Z.eqb_eq, lower_in_lower.
    tauto.
Qed.

Lemma is_really_active_verdict_witness :
  is_really_active (server_up_at 0)
    (Some "http://www.open.ac.uk/courses/qualifications/b31") "b31" 2 0 []
  = (Ret (Some (Some true)),
     trying "http://www.open.ac.uk/courses/qualifications/b31"
     ++ [EvHead "http://www.open.ac.uk/courses/qualifications/b31";
         report "b31" qualification_page])
  /\ fst (is_really_active (server_up_at 2)
            (Some "http://www.open.ac.uk/courses/qualifications/b31") "b31"
            2 0 [])
     = Ret (Some (Some true)).
Proof.
  split.
  - apply (proj1 (is_really_active_verdict (server_up_at 0)
                    (Some "http://www.open.ac.uk/courses/qualifications/b31")
                    "b31" 2 0 [] qualification_page)); reflexivity.
  - apply (proj1 (proj2 (is_really_active_verdict (server_up_at 2)
                    (Some "http://www.open.ac.uk/courses/qualifications/b31")
                    "b31" 2 0 [] qualification_page))
             (trying "http://www.open.ac.uk/courses/qualifications/b31"
              ++ [EvHead "http://www.open.ac.uk/courses/qualifications/b31";
                  failed ConnectTimeout; retrying 1 2]
              ++ trying "http://www.open.ac.uk/courses/qualifications/b31"
              ++ [EvHead "http://www.open.ac.uk/courses/qualifications/b31";
                  failed ConnectTimeout; retrying 2 2]
              ++ trying "http://www.open.ac.uk/courses/qualifications/b31")
             (report "b31" qualification_page)); reflexivity.
Defined.

End Liveness.

(** *** The catalogue queries *)

Module Catalog.
Import PyStr Json OuSparqlUtils.


Definition timeout_record : event :=
  EvLog WARNING [FStr "data.open.ac.uk timeout"].
Definition parsing_record : event :=
  EvLog ERROR [FStr "JSON parsing exception"].


Section Facts.
Variable httpx_get : trace -> sparql_request -> result response.

Local Abbreviation query := (query_data_open_ac_uk httpx_get).

(** [query_data_open_ac_uk], outcome by outcome. *)
Lemma query_unfold (q : sparql_query) (offset limit : Z) (t : trace) :
  query q offset limit t =
  let req := Request q offset limit in
  match httpx_get t req with
  | Raise e =>
      if is_ReadTimeout e
      then (Ret [], t ++ [EvGet req; timeout_record])
      else (Raise e, t ++ [EvGet req])
  | Ret http_result =>
      match parse_body http_result with
      | (retval, Some _) => (Ret retval, t ++ [EvGet req; parsing_record])
      | (retval, None) => (Ret retval, t ++ [EvGet req])
      end
  end.
Proof.
  unfold query_data_open_ac_uk.
  cbv beta iota zeta delta [bind try_except client_get emit modify_state
    get_state lift_result ret].
  destruct (httpx_get t _) as [http_result | e].
  - destruct (parse_body http_result) as [retval [e|]];
      [now rewrite <- app_assoc | reflexivity].
  - destruct (is_ReadTimeout e); [now rewrite <- app_assoc | reflexivity].
Qed.


(** The states in which the three queries of a resolution run, in
    order, and their outcomes. *)
Definition querying_xcri (code_ : string) : event :=
  EvLog INFO [FStr "Querying "; FStr code_; FStr " from xcri"].
Definition querying_oldcourses (code_ : string) : event :=
  EvLog INFO [FStr "Querying "; FStr code_; FStr " from oldcourses"].

Definition courses_layer (code_ : string) (t : trace)
    : result (list pydict) * trace :=
  query (Query XCRI_QUERY (filter_of (upper code_))) 0 1
    (t ++ [querying_xcri (upper code_)]).

Definition qualifications_layer (code_ : string) (t : trace)
    : result (list pydict) * trace :=
  query (Query XCRI_QUALIFICATIONS_QUERY (filter_of (upper code_))) 0 1
    (snd (courses_layer code_ t)).

Definition oldcourses_layer (code_ : string) (t : trace)
    : result (list pydict) * trace :=
  query (Query OLDCOURSE_QUERY (filter_of (upper code_))) 0 1
    (snd (qualifications_layer code_ t)
     ++ [querying_oldcourses (upper code_)]).

(** The value returned for a binding: [Some] of the tuple built from
    it, or the [KeyError] of a binding that has no title. *)
Definition answer (code_ : string) (b : pydict) : result (option Result) :=
  match build_result (upper code_) b with
  | Ret r => Ret (Some r)
  | Raise e => Raise e
  end.

Definition xcri_record (b : pydict) : event :=
  EvLog INFO [FStr "xcri result: "; FDict b].
Definition oldcourses_record (b : pydict) : event :=
  EvLog INFO [FStr "oldcourses result: "; FDict b].
Definition no_results_record (code_ : string) : event :=
  EvLog INFO [FStr "Querying "; FStr code_;
              FStr " from SPARQL returned no results"].

(** [find_module_or_qualification] in terms of its three queries. *)
Lemma find_unfold (code_ : string) (t : trace) :
  find_module_or_qualification httpx_get code_ t =
  match courses_layer code_ t with
  | (Raise e, t1) => (Raise e, t1)
  | (Ret courses, _) =>
      match qualifications_layer code_ t with
      | (Raise e, t2) => (Raise e, t2)
      | (Ret qualifications, t2) =>
          match courses ++ qualifications with
          | b :: _ => (answer code_ b, t2 ++ [xcri_record b])
          | [] =>
              match oldcourses_layer code_ t with
              | (Raise e, t3) => (Raise e, t3)
              | (Ret (b :: _), t3) =>
                  (answer code_ b, t3 ++ [oldcourses_record b])
              | (Ret [], t3) =>
                  (Ret None, t3 ++ [no_results_record (upper code_)])
              end
          end
      end
  end.
Proof.
  unfold oldcourses_layer, qualifications_layer, courses_layer.
  unfold find_module_or_qualification, query_xcri, query_oldcourses.
  cbv beta iota zeta delta [bind emit modify_state lift_result ret].
  fold (querying_xcri (upper code_)).
  destruct (query _ 0%Z 1%Z (t ++ [querying_xcri (upper code_)]))
    as [[courses | e] t1]; [|reflexivity].
  cbn [snd].
  destruct (query _ 0%Z 1%Z t1) as [[qualifications | e] t2];
    [|reflexivity].
  cbn [snd].
  destruct (courses ++ qualifications) as [|b rest].
  - fold (querying_oldcourses (upper code_)).
    destruct (query _ 0%Z 1%Z (t2 ++ [querying_oldcourses (upper code_)]))
      as [[[|b rest] | e] t3]; try reflexivity.
    unfold answer, oldcourses_record.
    now destruct (build_result (upper code_) b).
  - unfold answer, xcri_record.
    now destruct (build_result (upper code_) b).
Qed.






End Facts.
End Catalog.

Module Resolution.
Import PyStr Json OuSparqlUtils Catalog.

(** A catalogue that knows one module among its old courses only, and an
    empty one. *)
Definition bindings_body (bindings : list json) : response :=
  Response (Ret (JObj [("results", JObj [("bindings", JArr bindings)])])).

Definition cell (s : string) : json := JObj [("value", JStr s)].

Definition oldcourse_only : trace -> sparql_request -> result response :=
  fun _ req =>
    match q_template (r_query req) with
    | OLDCOURSE_QUERY =>
        Ret (bindings_body
               [JObj [("id", cell "M101");
                      ("title", cell "Mathematics: a foundation course")]])
    | _ => Ret (bindings_body [])
    end.





End Resolution.

(** *** The plugin *)

Module Plugin.
Import PyStr OUModulesBotPlugin.

(** The state after one more effect. *)
Definition record_effect (s : state) (e : event) : state :=
  mkState (embeds_cache s) (effects s ++ [e]).

(** The pages asked for in a trace, in order. *)
Definition requests (t : trace) : list string :=
  flat_map (fun e => match e with EvRequest u => [u] | _ => [] end) t.

(** The replies and edits of a trace, in order. *)
Definition posts (t : trace) : list event :=
  filter (fun e => match e with EvRequest _ => false | _ => true end) t.


Lemma posts_app (t1 t2 : trace) : posts (t1 ++ t2) = posts t1 ++ posts t2.
Proof. apply filter_app. Qed.

(** What [post_modules] sends: the content, the embed it builds and the
    embed it hands to [reply]. *)
Definition reply_content (modules : list (string * string)) : string :=
  if (1 <? List.length modules)%nat then EmptyString
  else match modules with
       | (code, title) :: _ => (code ++ ": " ++ title)%string
       | [] => EmptyString
       end.

Definition built_embed (modules : list (string * string)) : MessageEmbed :=
  if (1 <? List.length modules)%nat then
    map (fun m => mkField (fst m) (" * " ++ snd m ++ " ")%string true) modules
  else [].

Definition reply_embed (modules : list (string * string))
    : option MessageEmbed :=
  if (1 <? List.length modules)%nat then Some (built_embed modules)
  else None.

Lemma add_fields_map (embed : MessageEmbed)
    (modules : list (string * string)) :
  add_fields embed modules
  = embed ++ map (fun m => mkField (fst m) (" * " ++ snd m ++ " ")%string true)
               modules.
Proof.
  revert embed. induction modules as [|[code title] rest IH]; intros embed.
  - cbn. now rewrite app_nil_r.
  - cbn [add_fields map fst snd]. rewrite IH, <- app_assoc. reflexivity.
Qed.

(** The state after the lookups of a loop. *)
Definition looked_up (s : state) (keys : list string) : state :=
  mkState (embeds_cache s)
    (effects s ++ map (fun k => EvRequest (archive_url k)) keys).

Lemma looked_up_nil (s : state) : looked_up s [] = s.
Proof. unfold looked_up. cbn. rewrite app_nil_r. now destruct s. Qed.

(** The codes of inline mode, in order: the first five matches without
    their mark. *)
Definition inline_candidates (text : string) : list string :=
  map (drop 1) (firstn MODULES_COUNT_LIMIT (findall EMBED_RE text)).

(** What [get_module_title] makes of the outcome of its request: [None]
    when the transport failed, a [TypeError] when a page came back. *)
Definition page_title (fetched : result bytes) : result (option string) :=
  match fetched with
  | Ret _ => Raise TypeError
  | Raise _ => Ret None
  end.

Section Facts.
Variable str_upper : string -> string.
Variable str_isalnum : string -> bool.
Variable requests_get : trace -> string -> result bytes.
Variable message_reply :
  trace -> Message -> string -> option MessageEmbed -> Message.

Local Abbreviation post := (post_modules message_reply).
Local Abbreviation title_of := (get_module_title requests_get).

(** The state in which the lookup of the cache leaves it. *)
Definition after_lookup (k : Z) (s : state) : state :=
  match Pylru.lookup k (Pylru.table (embeds_cache s)) with
  | Some v =>
      mkState (Pylru.LruCache (Pylru.size (embeds_cache s))
                 ((k, v) :: Pylru.remove k (Pylru.table (embeds_cache s))))
              (effects s)
  | None => s
  end.

(** [post_modules], case by case. *)
Lemma post_unfold (event_ : Event) (reply_to : Message)
    (modules : list (string * string)) (s : state) :
  post event_ reply_to modules s =
  let k := id (message event_) in
  let s1 := after_lookup k s in
  match modules with
  | [] => (Raise IndexError, s1)
  | _ :: _ =>
      match Pylru.lookup k (Pylru.table (embeds_cache s)) with
      | Some (modify_c, modify_m) =>
          (Ret tt,
           record_effect s1
             (EvModify (channel_id modify_c) (id modify_m)
                (reply_content modules) (built_embed modules)))
      | None =>
          let sent := message_reply (effects s) reply_to
                        (reply_content modules) (reply_embed modules) in
          (Ret tt,
           mkState
             (Pylru.setitem (id reply_to) (channel event_, sent)
                (embeds_cache s))
             (effects s ++ [EvReply (id reply_to) (reply_content modules)
                              (reply_embed modules)]))
      end
  end.
Proof.
  unfold post_modules, after_lookup, reply_content, reply_embed,
    built_embed, record_effect.
  cbv beta iota zeta delta [bind cache_contains cache_getitem
    cache_setitem reply channels_messages_modify emit modify_state
    get_state ret raise Pylru.contains Pylru.getitem].
  destruct (Pylru.lookup (id (message event_))
              (Pylru.table (embeds_cache s))) as [[modify_c modify_m]|] eqn:E;
    rewrite ?E;
    destruct modules as [|[code title] [|m2 rest]]; cbn -[add_fields];
    rewrite ?E, ?add_fields_map; reflexivity.
Qed.

(** [get_module_title] sends one request; it returns [None] when the
    request fails and raises when the request is answered. *)
Lemma title_unfold (code : string) (s : state) :
  title_of code s =
  (page_title (requests_get (effects s) (archive_url code)),
   record_effect s (EvRequest (archive_url code))).
Proof.
  unfold get_module_title, record_effect, page_title.
  cbv beta iota zeta delta [bind try_except get emit modify_state
    get_state lift_result ret except_Exception findall_in_bytes].
  now destruct (requests_get _ _) as [html | e].
Qed.

(** *** The two loops *)

(** What the command mode does to a token before the lookup, and the
    test it applies. *)
Definition normalize (token : string) : string :=
  remove_char "!" (str_upper token).

Definition well_formed (code : string) : bool :=
  str_isalnum code && ((4 <=? len code)%nat && (len code <=? 6)%nat).

(** The codes of command mode, in order: the well-formed ones among the
    first five tokens after the command name. *)
Definition command_candidates (text : string) : list string :=
  filter well_formed
    (map normalize (firstn MODULES_COUNT_LIMIT (skipn 1 (split text)))).

(** The round shared by the two loops: look [key] up and, when a title
    comes back, report it under [display key]. *)
Definition lookup_step (display : string -> string) (a : acc)
    (key : string) : M (St := state) acc :=
  bind (title_of key) (fun title =>
    if found title
    then ret (fst a ++ [(display key, title_text title)], true)
    else ret a).

Lemma embed_step_lookup (a : acc) (module : string) (s : state) :
  embed_step str_upper requests_get a module s
  = lookup_step str_upper a (drop 1 module) s.
Proof.
  unfold embed_step, lookup_step. destruct a as [modules any_found].
  unfold bind. destruct (title_of _ s) as [[title | e] s'];
    [|reflexivity].
  now destruct (found title).
Qed.

Lemma command_step_lookup (a : acc) (token : string) (s : state) :
  command_step str_upper str_isalnum requests_get a token s
  = if well_formed (normalize token)
    then lookup_step (fun c => c) a (normalize token) s
    else (Ret a, s).
Proof.
  unfold command_step, lookup_step. destruct a as [modules any_found].
  fold (normalize token). fold (well_formed (normalize token)).
  destruct (well_formed (normalize token)); [|reflexivity].
  unfold bind. destruct (title_of _ s) as [[title | e] s'];
    [|reflexivity].
  now destruct (found title).
Qed.

Lemma embed_loop_lookup (items : list string) (a : acc) (s : state) :
  for_each (embed_step str_upper requests_get) items a s
  = for_each (lookup_step str_upper) (map (drop 1) items) a s.
Proof.
  revert a s. induction items as [|m items IH]; intros a s;
    [reflexivity|].
  cbn [for_each map]. unfold bind. rewrite embed_step_lookup.
  destruct (lookup_step str_upper a (drop 1 m) s) as [[a' | e] s'];
    [apply IH | reflexivity].
Qed.

Lemma command_loop_lookup (tokens : list string) (a : acc) (s : state) :
  for_each (command_step str_upper str_isalnum requests_get) tokens a s
  = for_each (lookup_step (fun c => c))
      (filter well_formed (map normalize tokens)) a s.
Proof.
  revert a s. induction tokens as [|c tokens IH]; intros a s;
    [reflexivity|].
  cbn [for_each map filter]. unfold bind at 1.
  rewrite command_step_lookup.
  destruct (well_formed (normalize c)).
  - cbn [for_each]. unfold bind.
    destruct (lookup_step _ a (normalize c) s) as [[a' | e] s'];
      [apply IH | reflexivity].
  - apply IH.
Qed.

(** The pages that a loop of lookups asks for, starting with the trace
    [t]: the loop goes on while the transport fails and stops at the
    first page that is answered.  The flag tells whether it stopped
    there. *)
Fixpoint asked (t : trace) (keys : list string) : list string * bool :=
  match keys with
  | [] => ([], false)
  | k :: rest =>
      match requests_get t (archive_url k) with
      | Ret _ => ([k], true)
      | Raise _ =>
          let (more, stopped) :=
            asked (t ++ [EvRequest (archive_url k)]) rest in
          (k :: more, stopped)
      end
  end.

(** A loop of lookups leaves the cache alone and asks for the pages of
    its keys in order.  It finds no title: it ends with what it started
    from when every request fails, and with the [TypeError] of the first
    page that is answered otherwise. *)
Lemma lookup_loop (display : string -> string) (keys : list string) :
  forall (a : acc) (s : state),
    for_each (lookup_step display) keys a s
    = (if snd (asked (effects s) keys) then Raise TypeError else Ret a,
       looked_up s (fst (asked (effects s) keys))).
Proof.
  induction keys as [|k keys IH]; intros a s.
  - cbn. now rewrite looked_up_nil.
  - cbn [for_each asked]. unfold bind, lookup_step at 1. unfold bind.
    rewrite title_unfold.
    destruct (requests_get (effects s) (archive_url k)) as [html | e];
      cbn [page_title]; [reflexivity|].
    cbn [found]. unfold ret. rewrite IH. cbn [record_effect effects].
    destruct (asked (effects s ++ [EvRequest (archive_url k)]) keys)
      as [more stopped].
    cbn [fst snd]. unfold looked_up, record_effect.
    cbn [embeds_cache effects map]. now rewrite <- app_assoc.
Qed.

(** The pages asked for are the first keys, all of them when no page is
    answered. *)
Lemma asked_prefix (keys : list string) :
  forall t : trace,
  exists n : nat,
    n <= List.length keys
    /\ fst (asked t keys) = firstn n keys
    /\ (snd (asked t keys) = false -> n = List.length keys).
Proof.
  induction keys as [|k keys IH]; intros t.
  - exists 0. repeat split; auto.
  - cbn [asked]. destruct (requests_get t (archive_url k)) as [html | e].
    + exists 1. cbn. repeat split; [lia | discriminate].
    + destruct (IH (t ++ [EvRequest (archive_url k)]))
        as (n & Hn & Hfst & Hsnd).
      destruct (asked (t ++ [EvRequest (archive_url k)]) keys)
        as [more stopped].
      cbn [fst snd] in *. exists (S n). cbn [List.length firstn].
      repeat split; [lia | now rewrite Hfst |].
      intros H. now rewrite Hsnd.
Qed.

Lemma length_asked (keys : list string) (t : trace) :
  List.length (fst (asked t keys)) <= List.length keys.
Proof.
  destruct (asked_prefix keys t) as (n & Hn & -> & _).
  rewrite length_firstn. lia.
Qed.


(** The loop stops at a page exactly when that page is answered, all
    the pages before it having failed. *)
Lemma asked_stopped (keys : list string) :
  forall t : trace,
    snd (asked t keys) = true <->
    exists (n : nat) (k : string) (html : bytes),
      nth_error keys n = Some k
      /\ fst (asked t keys) = firstn (S n) keys
      /\ requests_get
           (t ++ map (fun k => EvRequest (archive_url k)) (firstn n keys))
           (archive_url k) = Ret html.
Proof.
  induction keys as [|k keys IH]; intros t.
  - cbn. split; [discriminate|]. intros (n & k & html & H & _).
    destruct n; discriminate.
  - cbn [asked]. destruct (requests_get t (archive_url k)) as [html | e] eqn:E.
    + split; [|reflexivity]. intros _. exists 0, k, html.
      cbn [nth_error firstn map fst]. now rewrite app_nil_r.
    + specialize (IH (t ++ [EvRequest (archive_url k)])).
      destruct (asked (t ++ [EvRequest (archive_url k)]) keys)
        as [more stopped].
      cbn [fst snd] in *. rewrite IH. split.
      * intros (n & k' & html & Hnth & Hfst & Hget).
        exists (S n), k', html. cbn [nth_error firstn map].
        rewrite <- app_assoc in Hget.
        repeat split; [exact Hnth | now rewrite Hfst | exact Hget].
      * intros (n & k' & html & Hnth & Hfst & Hget).
        destruct n as [|n].
        { cbn [nth_error firstn map] in Hnth, Hget. injection Hnth as <-.
          rewrite app_nil_r in Hget. congruence. }
        exists n, k', html. cbn [nth_error firstn map] in *.
        rewrite <- app_assoc.
        repeat split; [exact Hnth | now injection Hfst | exact Hget].
Qed.

(** An archive that cannot be reached: every request fails. *)
Definition unreachable : Prop :=
  forall (t : trace) (target : string),
    exists e, requests_get t target = Raise e.

Lemma asked_unreachable (keys : list string) :
  unreachable -> forall t : trace, asked t keys = (keys, false).
Proof.
  intros Hdown. induction keys as [|k keys IH]; intros t; [reflexivity|].
  cbn [asked]. destruct (Hdown t (archive_url k)) as [e ->].
  now rewrite IH.
Qed.

(** [command_modulename]: the loop, then the decision to post. *)
Lemma command_unfold (event_ : Event) (message_ : Message) (s : state) :
  command_modulename str_upper str_isalnum requests_get message_reply
    event_ message_ s
  = let pages := asked (effects s) (command_candidates (content message_)) in
    if snd pages then (Raise TypeError, looked_up s (fst pages))
    else if (List.length (skipn 1 (split (content message_))) =? 1)%nat
         then post event_ message_ [] (looked_up s (fst pages))
         else (Ret tt, looked_up s (fst pages)).
Proof.
  unfold command_modulename, bind. rewrite command_loop_lookup.
  fold (command_candidates (content message_)). rewrite lookup_loop.
  cbv zeta.
  destruct (snd (asked (effects s) (command_candidates (content message_))));
    [reflexivity|].
  cbn [orb]. now destruct (_ =? 1)%nat.
Qed.

(** [do_embeds] on a text that is not a command. *)
Lemma embeds_unfold (event_ : Event) (s : state) :
  let message_ :=
    match msg event_ with Some m => m | None => message event_ end in
  truthy (content message_) = true ->
  startswith ("!" ++ COMMAND_NAME) (content message_) = false ->
  do_embeds str_upper str_isalnum requests_get message_reply event_ s
  = let pages :=
      asked (effects s) (inline_candidates (content (message event_))) in
    (if snd pages then Raise TypeError else Ret tt,
     looked_up s (fst pages)).
Proof.
  intros message_ Htruthy Hcommand. unfold do_embeds.
  fold message_. rewrite Htruthy, Hcommand. cbn [negb].
  unfold bind. rewrite embed_loop_lookup.
  fold (inline_candidates (content (message event_))). rewrite lookup_loop.
  cbv zeta.
  now destruct (snd (asked (effects s)
                       (inline_candidates (content (message event_))))).
Qed.



Lemma posts_looked_up (s : state) (keys : list string) :
  posts (effects (looked_up s keys)) = posts (effects s).
Proof.
  unfold looked_up. cbn [effects]. rewrite posts_app.
  induction keys as [|k keys IH]; cbn; [apply app_nil_r | exact IH].
Qed.

(** With no module to show, [post_modules] sends nothing. *)
Lemma posts_post_nothing (event_ : Event) (reply_to : Message) (s : state) :
  posts (effects (snd (post event_ reply_to [] s))) = posts (effects s).
Proof.
  rewrite post_unfold. cbv zeta. cbn [snd]. unfold after_lookup.
  now destruct (Pylru.lookup _ _).
Qed.


Lemma posts_command (event_ : Event) (message_ : Message) (s : state) :
  posts
    (effects
       (snd (command_modulename str_upper str_isalnum requests_get
               message_reply event_ message_ s)))
  = posts (effects s).
Proof.
  rewrite command_unfold. cbv zeta.
  destruct (snd (asked _ _)); [apply posts_looked_up|].
  destruct (_ =? 1)%nat; [|apply posts_looked_up].
  now rewrite posts_post_nothing, posts_looked_up.
Qed.

End Facts.

(** *** Upper case of ASCII text *)

Lemma upper_c_idempotent (c : ascii) : upper_c (upper_c c) = upper_c c.
Proof. destruct c as [[] [] [] [] [] [] [] []]; reflexivity. Qed.

Lemma upper_idempotent (s : string) : upper (upper s) = upper s.
Proof.
  unfold upper. induction s as [|c s IH]; [reflexivity|].
  cbn [map_str]. now rewrite IH, upper_c_idempotent.
Qed.

(** *** The pattern of the inline mentions *)

(** One to three letters followed by one to three digits. *)
Definition code_shaped (c : string) : Prop :=
  exists letters digits : string,
    c = (letters ++ digits)%string
    /\ 1 <= String.length letters <= 3
    /\ 1 <= String.length digits <= 3
    /\ all_str is_alpha_c letters = true
    /\ all_str is_digit_c digits = true.

Lemma span_upto_spec (p : ascii -> bool) (n : nat) :
  forall s a b : string,
    span_upto p n s = (a, b) ->
    s = (a ++ b)%string /\ all_str p a = true /\ String.length a <= n.
Proof.
  induction n as [|n IH]; intros s a b H.
  - cbn in H. destruct s; injection H as <- <-; cbn; auto.
  - destruct s as [|c s]; [injection H as <- <-; cbn; auto with arith|].
    cbn [span_upto] in H. destruct (p c) eqn:Hc.
    + destruct (span_upto p n s) as [a' b'] eqn:E.
      injection H as <- <-.
      destruct (IH s a' b' E) as (-> & Hall & Hlen).
      cbn. rewrite Hc, Hall. auto with arith.
    + injection H as <- <-. cbn. auto with arith.
Qed.

(** What [EMBED_RE] reports is the mark followed by a code. *)
Lemma EMBED_RE_shape (s w : string) (len : nat) :
  EMBED_RE s = Some (w, len) ->
  startswith w s = true /\ len = String.length w
  /\ exists c, w = String "!" c /\ code_shaped c.
Proof.
  unfold EMBED_RE. destruct s as [|c s1]; [discriminate|].
  destruct (Ascii.eqb_spec c "!") as [->|]; [|discriminate].
  destruct (span_upto is_alpha_c 3 s1) as [letters s2] eqn:E1.
  destruct (span_upto is_digit_c 3 s2) as [digits s3] eqn:E2.
  destruct (span_upto_spec _ _ _ _ _ E1) as (-> & Hl & Hln).
  destruct (span_upto_spec _ _ _ _ _ E2) as (-> & Hd & Hdn).
  destruct letters as [|l letters]; [discriminate|].
  destruct digits as [|d digits]; [discriminate|].
  intros [= <- <-]. split; [|split; [reflexivity|]].
  - apply PyStrFacts.startswith_spec. exists s3.
    cbn. f_equal. f_equal. clear.
    induction letters as [|x letters IH]; cbn; [reflexivity | now f_equal].
  - exists (String l letters ++ String d digits)%string.
    split; [reflexivity|].
    exists (String l letters), (String d digits).
    cbn [String.length] in *. repeat split; auto; lia.
Qed.




Lemma length_command_candidates (str_upper : string -> string)
    (str_isalnum : string -> bool) (text : string) :
  List.length (command_candidates str_upper str_isalnum text) <= 5.
Proof.
  unfold command_candidates.
  etransitivity; [apply filter_length_le|].
  rewrite length_map. apply firstn_le_length.
Qed.

Lemma length_inline_candidates (text : string) :
  List.length (inline_candidates text) <= 5.
Proof.
  unfold inline_candidates. rewrite length_map. apply firstn_le_length.
Qed.

(** The page that the tests of the repository feed to the bot, as
    text. *)
Example MODULE_RE_on_test_page :
  findall MODULE_RE
    ("not really html but matches the regex:"
     ++ "<title>XYZ999 Some Random Module"
     ++ " - Open University Digital Archive</title>")
  = ["Some Random Module"].
Proof. reflexivity. Qed.

Example EMBED_RE_on_mentions :
  findall EMBED_RE "foo !A123 and !a012, not !abcd1 nor !x nor !12; !B31x"
  = ["!A123"; "!a012"; "!B31"].
Proof. reflexivity. Qed.

Example split_on_blanks :
  split "  !modulename   ab cd " = ["!modulename"; "ab"; "cd"].
Proof. reflexivity. Qed.

End Plugin.

(** *** A small world to run the plugin in *)

Module Demo.
Import PyStr OUModulesBotPlugin.

(** [str.upper] and [str.isalnum] on ASCII text, which is what the
    examples below are made of. *)
Definition ascii_upper : string -> string := upper.

Definition ascii_isalnum (s : string) : bool :=
  match s with
  | EmptyString => false
  | _ => all_str is_alnum_c s
  end.

(** U+00A0, the blank that does not break, and a word with a letter
    beyond ASCII (U+00E9), as their UTF-8 bytes. *)
Definition nbsp : string :=
  String (ascii_of_nat 194) (String (ascii_of_nat 160) EmptyString).

Definition cafe : string :=
  ("caf" ++ String (ascii_of_nat 195) (String (ascii_of_nat 169) EmptyString))
    %string.

Example split_on_nbsp :
  split ("!modulename" ++ nbsp ++ "ABCD") = ["!modulename"; "ABCD"].
Proof. reflexivity. Qed.

(** A text given by its bytes. *)
Definition of_bytes (l : list nat) : string :=
  string_of_list_ascii (map ascii_of_nat l).

(** The blanks beyond ASCII, each by its UTF-8 bytes, and three code
    points next to them that are no blanks: U+200B, U+180E and U+00A1. *)
Example blanks_beyond_ascii :
  map (fun l => blank_at (of_bytes l))
    [[194; 133]; [194; 160]; [225; 154; 128]; [226; 128; 128];
     [226; 128; 138]; [226; 128; 168]; [226; 128; 169]; [226; 128; 175];
     [226; 129; 159]; [227; 128; 128]]
  = [2; 2; 3; 3; 3; 3; 3; 3; 3; 3]
  /\ map (fun l => blank_at (of_bytes l))
       [[226; 128; 139]; [225; 160; 142]; [194; 161]]
     = [0; 0; 0].
Proof. split; reflexivity. Qed.

Example split_on_wide_blanks :
  split ("a" ++ of_bytes [226; 128; 131] ++ "b" ++ of_bytes [227; 128; 128]
         ++ cafe ++ of_bytes [10])
  = ["a"; "b"; cafe].
Proof. reflexivity. Qed.

Example len_counts_code_points :
  len cafe = 4 /\ String.length cafe = 5.
Proof. split; reflexivity. Qed.

Definition archive_page (code title : string) : string :=
  ("<html><head><title>" ++ code ++ " " ++ title
   ++ " - Open University Digital Archive</title></head></html>")%string.

(** An archive that holds the given modules under their upper-case
    codes and serves a page without a title for anything else. *)
Fixpoint archive_of (modules : list (string * string)) (target : string)
    : string :=
  match modules with
  | [] => "<html><head><title>Page not found</title></head></html>"
  | (code, title) :: rest =>
      if String.eqb target (archive_url code) then archive_page code title
      else archive_of rest target
  end.

Definition archive : trace -> string -> result bytes :=
  fun _ target =>
    Ret (list_byte_of_string
           (archive_of [("A123", "Mocked active module");
                        ("A012", "Mocked active short course");
                        ("ABCD", "Mocked command module")] target)).

Definition unreachable_archive : trace -> string -> result bytes :=
  fun _ _ => Raise ConnectError.

(** The chat service numbers the replies after the effects so far. *)
Definition chat
    : trace -> Message -> string -> option MessageEmbed -> Message :=
  fun t _ content_ _ => mkMessage (9000 + Z.of_nat (List.length t)) content_.

Definition incoming (id_ : Z) (text : string) : Event :=
  mkEvent (mkMessage id_ text) (mkChannel 42) None.

End Demo.

(** *** Candidate codes *)

Module Candidates.
Import PyStr OUModulesBotPlugin Plugin Demo.




(** C9, at the input where the code departs from it: an inline mention
    written in lower case is looked up as written; only the code shown
    in the reply is put in upper case.  The same code given to the
    command is looked up in upper case. *)
Theorem inline_lookup_keeps_case :
  requests
    (effects
       (snd (on_message_create ascii_upper ascii_isalnum archive chat
               (incoming 7 "foo !a123") initial_state)))
  = [archive_url "a123"]
  /\ upper "a123" <> "a123"
  /\ requests
       (effects
          (snd (on_message_create ascii_upper ascii_isalnum archive chat
                  (incoming 7 "!modulename a123") initial_state)))
     = [archive_url "A123"].
Proof. split; [reflexivity|]. split; [discriminate | reflexivity]. Qed.

End Candidates.

(** *** Command mode and the empty reply *)

Module CommandMode.
Import PyStr OUModulesBotPlugin Plugin Demo.

Lemma Forall_first {A : Type} (P : A -> Prop) (n : nat) (l : list A) :
  Forall P l -> Forall P (firstn n l).
Proof.
  intros H. revert n. induction H as [|x l Hx _ IH]; intros [|n]; cbn;
    auto.
Qed.

(** C3, as the code has it. When the command is given exactly one token
    and the token is not well formed, no lookup is made and the reply
    step is entered all the same, with no module.  When it is given
    several tokens and none is well formed, nothing is looked up and
    nothing is posted. *)
Theorem single_token_reaches_post
    (str_upper : string -> string) (str_isalnum : string -> bool)
    (requests_get : trace -> string -> result bytes)
    (message_reply :
       trace -> Message -> string -> option MessageEmbed -> Message)
    (event_ : Event) (message_ : Message) (s : state) :
  (forall token : string,
      skipn 1 (split (content message_)) = [token] ->
      well_formed str_isalnum (normalize str_upper token) = false ->
      command_modulename str_upper str_isalnum requests_get message_reply
        event_ message_ s
      = post_modules message_reply event_ message_ [] s)
  /\ (1 < List.length (skipn 1 (split (content message_))) ->
      Forall (fun token =>
                well_formed str_isalnum (normalize str_upper token) = false)
        (skipn 1 (split (content message_))) ->
      command_modulename str_upper str_isalnum requests_get message_reply
        event_ message_ s
      = (Ret tt, s)).
Proof.
  split.
  - intros token Htokens Hbad. rewrite command_unfold.
    unfold command_candidates. rewrite Htokens.
    cbn [firstn MODULES_COUNT_LIMIT map filter]. rewrite Hbad.
    cbn. now rewrite looked_up_nil.
  - intros Hmany Hbad. rewrite command_unfold.
    assert (Hnone : command_candidates str_upper str_isalnum
                      (content message_) = []).
    { unfold command_candidates.
      apply Forall_first with (n := MODULES_COUNT_LIMIT) in Hbad.
      induction Hbad as [|token rest Htoken _ IH]; [reflexivity|].
      cbn [map filter]. now rewrite Htoken. }
    rewrite Hnone. cbn [asked fst snd].
    destruct (Nat.eqb_spec (List.length (skipn 1 (split (content message_)))) 1);
      [lia|].
    now rewrite looked_up_nil.
Qed.

Lemma single_token_reaches_post_witness :
  command_modulename ascii_upper ascii_isalnum archive chat
    (incoming 7 "!modulename ab") (mkMessage 7 "!modulename ab")
    initial_state
  = post_modules chat (incoming 7 "!modulename ab")
      (mkMessage 7 "!modulename ab") [] initial_state
  /\ command_modulename ascii_upper ascii_isalnum archive chat
       (incoming 8 "!modulename ab !cd") (mkMessage 8 "!modulename ab !cd")
       initial_state
     = (Ret tt, initial_state).
Proof.
  split.
  - apply (proj1 (single_token_reaches_post ascii_upper ascii_isalnum
                    archive chat (incoming 7 "!modulename ab")
                    (mkMessage 7 "!modulename ab") initial_state) "ab");
      reflexivity.
  - apply (proj2 (single_token_reaches_post ascii_upper ascii_isalnum
                    archive chat (incoming 8 "!modulename ab !cd")
                    (mkMessage 8 "!modulename ab !cd") initial_state)).
    + vm_compute. lia.
    + vm_compute. repeat constructor.
Defined.

(** C3, as stated, fails: for a single token that is not well formed
    nothing is looked up and nothing is posted; the handler ends with an
    exception. *)
Lemma malformed_single_token_gets_no_reply :
  let run := on_message_update ascii_upper ascii_isalnum archive chat
               (incoming 7 "!modulename ab") initial_state in
  fst run = Raise IndexError
  /\ requests (effects (snd run)) = []
  /\ posts (effects (snd run)) = [].
Proof. cbv zeta. repeat split; reflexivity. Qed.

(** C10. [post_modules] cannot handle an empty list of modules: it
    reaches [modules[0]] and raises [IndexError], having posted nothing.
    The handlers get there: a command with a single token that is not
    well formed, or whose page cannot be fetched, ends with that
    exception. *)
Theorem post_modules_needs_a_module
    (str_upper : string -> string) (str_isalnum : string -> bool)
    (requests_get : trace -> string -> result bytes)
    (message_reply :
       trace -> Message -> string -> option MessageEmbed -> Message)
    (event_ : Event) (reply_to : Message) (s : state) :
  fst (post_modules message_reply event_ reply_to [] s) = Raise IndexError
  /\ effects (snd (post_modules message_reply event_ reply_to [] s))
     = effects s
  /\ (forall token : string,
        startswith ("!" ++ COMMAND_NAME) (content (message event_)) = true ->
        skipn 1 (split (content (message event_))) = [token] ->
        (well_formed str_isalnum (normalize str_upper token) = true ->
         exists e,
           requests_get (effects s)
             (archive_url (normalize str_upper token)) = Raise e) ->
        let run := on_message_update str_upper str_isalnum requests_get
                     message_reply event_ s in
        fst run = Raise IndexError /\ posts (effects (snd run))
                                     = posts (effects s)).
Proof.
  assert (Hempty : forall s0,
             fst (post_modules message_reply event_ reply_to [] s0)
             = Raise IndexError
             /\ effects (snd (post_modules message_reply event_ reply_to
                                [] s0)) = effects s0).
  { intros s0. rewrite post_unfold. cbv zeta. cbn [fst snd].
    split; [reflexivity|]. unfold after_lookup.
    now destruct (Pylru.lookup _ _). }
  split; [apply Hempty | split; [apply Hempty|]].
  intros token Hcommand Htokens Hmiss run. subst run.
  unfold on_message_update.
  assert (Htruthy : truthy (content (message event_)) = true).
  { destruct (content (message event_)); [discriminate | reflexivity]. }
  rewrite Htruthy, Hcommand. cbn [negb].
  split; [|apply posts_command].
  rewrite command_unfold. unfold command_candidates. rewrite Htokens.
  cbn [firstn MODULES_COUNT_LIMIT map filter List.length Nat.eqb].
  destruct (well_formed str_isalnum (normalize str_upper token)).
  - cbn [asked]. destruct (Hmiss eq_refl) as [e ->]. cbn [fst snd].
    now rewrite post_unfold.
  - cbn [asked fst snd]. now rewrite post_unfold.
Qed.

Lemma post_modules_needs_a_module_witness :
  fst (on_message_update ascii_upper ascii_isalnum unreachable_archive chat
         (incoming 7 "!modulename XY999") initial_state) = Raise IndexError
  /\ posts (effects (snd (on_message_update ascii_upper ascii_isalnum
                            unreachable_archive chat
                            (incoming 7 "!modulename XY999")
                            initial_state)))
     = posts (effects initial_state).
Proof.
  apply (proj2 (proj2 (post_modules_needs_a_module ascii_upper ascii_isalnum
                         unreachable_archive chat
                         (incoming 7 "!modulename XY999")
                         (mkMessage 7 "!modulename XY999") initial_state))
           "XY999"); [reflexivity | reflexivity |].
  intros _. now exists ConnectError.
Defined.

End CommandMode.

(** *** The record of the replies *)

Module Reconciler.
Import PyStr OUModulesBotPlugin Plugin Demo.

(** Moving the identity [k] to the front of the identities [l]. *)
Definition move_to_front (k : Z) (l : list Z) : list Z :=
  k :: filter (fun k' => negb (k' =? k)%Z) l.

(** The identities touched in [history], whose first item is the touch
    that came first: each identity once, from the one touched last to the
    one whose last touch is the oldest. *)
Definition by_recency (history : list Z) : list Z :=
  fold_left (fun l k => move_to_front k l) history [].

Section CacheFacts.
Context {V : Type}.

Lemma lookup_remove_other (k k' : Z) (t : list (Z * V)) :
  k <> k' ->
  Pylru.lookup k (Pylru.remove k' t) = Pylru.lookup k t.
Proof.
  intros Hk. induction t as [|[k0 v] t IH]; [reflexivity|].
  cbn. destruct (Z.eqb_spec k' k0) as [->|Hk0].
  - destruct (Z.eqb_spec k k0); [contradiction | exact IH].
  - cbn. now rewrite IH.
Qed.

Lemma length_remove_present (k : Z) (v : V) (t : list (Z * V)) :
  Pylru.lookup k t = Some v ->
  S (List.length (Pylru.remove k t)) <= List.length t.
Proof.
  induction t as [|[k' v'] t IH]; [discriminate|].
  cbn. destruct (Z.eqb_spec k k') as [->|Hk]; intros H.
  - clear IH H. apply le_n_S.
    induction t as [|[k0 v0] t IH]; [constructor|].
    cbn. destruct (k' =? k0)%Z; cbn; lia.
  - cbn. apply le_n_S. now apply IH.
Qed.

Lemma length_removelast (t : list (Z * V)) :
  List.length (removelast t) = List.length t - 1.
Proof.
  induction t as [|x [|y t] IH]; [reflexivity | reflexivity|].
  change (removelast (x :: y :: t)) with (x :: removelast (y :: t)).
  cbn [List.length] in *. rewrite IH. lia.
Qed.

(** Writing an entry keeps the cache within its size. *)
Lemma setitem_bounded (k : Z) (v : V) (c : Pylru.lrucache V) :
  0 < Pylru.size c ->
  List.length (Pylru.table c) <= Pylru.size c ->
  Pylru.size (Pylru.setitem k v c) = Pylru.size c
  /\ List.length (Pylru.table (Pylru.setitem k v c)) <= Pylru.size c.
Proof.
  intros Hpos H. unfold Pylru.setitem, Pylru.contains.
  destruct (Pylru.lookup k (Pylru.table c)) as [v0|] eqn:E.
  - split; [reflexivity|]. cbn.
    pose proof (length_remove_present k v0 _ E). lia.
  - destruct (Nat.ltb_spec (List.length (Pylru.table c)) (Pylru.size c)).
    + split; [reflexivity|]. cbn. lia.
    + split; [reflexivity|]. cbn. rewrite length_removelast. lia.
Qed.

(** What has just been written is what is read back. *)
Lemma lookup_setitem (k : Z) (v : V) (c : Pylru.lrucache V) :
  Pylru.lookup k (Pylru.table (Pylru.setitem k v c)) = Some v.
Proof.
  unfold Pylru.setitem.
  destruct (Pylru.contains k c);
    [|destruct (List.length (Pylru.table c) <? Pylru.size c)%nat];
    cbn; now rewrite Z.eqb_refl.
Qed.

(** Writing a new key into a full cache drops its last entry and
    nothing else. *)
Lemma setitem_evicts (k : Z) (v : V) (c : Pylru.lrucache V) :
  Pylru.lookup k (Pylru.table c) = None ->
  Pylru.table (Pylru.setitem k v c)
  = (k, v) :: (if (List.length (Pylru.table c) <? Pylru.size c)%nat
               then Pylru.table c
               else removelast (Pylru.table c)).
Proof.
  intros E. unfold Pylru.setitem, Pylru.contains. rewrite E.
  now destruct (List.length (Pylru.table c) <? Pylru.size c)%nat.
Qed.

(** The keys of a table, read against the order of the touches. *)
Lemma keys_remove (k : Z) (t : list (Z * V)) :
  map fst (Pylru.remove k t)
  = filter (fun k' => negb (k' =? k)%Z) (map fst t).
Proof.
  induction t as [|[k0 v] t IH]; [reflexivity|].
  cbn. rewrite (Z.eqb_sym k0 k).
  destruct (k =? k0)%Z; cbn; now rewrite IH.
Qed.

Lemma lookup_none_keys (k : Z) (t : list (Z * V)) :
  Pylru.lookup k t = None -> ~ In k (map fst t).
Proof.
  induction t as [|[k0 v] t IH]; [intros _ []|].
  cbn. destruct (Z.eqb_spec k k0) as [->|Hk]; [discriminate|].
  intros H [Hin | Hin]; [congruence | now apply IH].
Qed.

Lemma map_removelast {A B : Type} (f : A -> B) (l : list A) :
  map f (removelast l) = removelast (map f l).
Proof.
  induction l as [|x [|y l] IH]; [reflexivity | reflexivity|].
  change (removelast (x :: y :: l)) with (x :: removelast (y :: l)).
  cbn [map] in *. now rewrite IH.
Qed.

End CacheFacts.

Lemma filter_absent (k : Z) (l : list Z) :
  ~ In k l -> filter (fun k' => negb (k' =? k)%Z) l = l.
Proof.
  induction l as [|x l IH]; [reflexivity|].
  intros H. cbn. destruct (Z.eqb_spec x k) as [->|Hx].
  - exfalso. apply H. now left.
  - cbn. rewrite IH; [reflexivity|]. intros Hin. apply H. now right.
Qed.

Lemma length_filter_other (k : Z) (l : list Z) :
  List.length (filter (fun k' => negb (k' =? k)%Z) l) <= List.length l.
Proof. apply filter_length_le. Qed.

(** An identity that occurs is taken out. *)
Lemma length_filter_present (k : Z) (l : list Z) :
  In k l ->
  S (List.length (filter (fun k' => negb (k' =? k)%Z) l)) <= List.length l.
Proof.
  induction l as [|x l IH]; [intros []|].
  intros H. cbn. destruct (Z.eqb_spec x k) as [->|Hx].
  - cbn. pose proof (length_filter_other k l). lia.
  - cbn. destruct H as [H | H]; [contradiction|].
    pose proof (IH H). lia.
Qed.

(** Among identities that differ, at most one is taken out. *)
Lemma length_filter_nodup (k : Z) (l : list Z) :
  NoDup l ->
  List.length l <= S (List.length (filter (fun k' => negb (k' =? k)%Z) l)).
Proof.
  induction 1 as [|x l Hx _ IH]; [cbn; lia|].
  cbn. destruct (Z.eqb_spec x k) as [->|Hk].
  - cbn. rewrite filter_absent by exact Hx. lia.
  - cbn. lia.
Qed.

Lemma NoDup_move_to_front (k : Z) (l : list Z) :
  NoDup l -> NoDup (move_to_front k l).
Proof.
  intros H. unfold move_to_front. constructor.
  - intros Hin. apply filter_In in Hin. destruct Hin as [_ Hk].
    now rewrite Z.eqb_refl in Hk.
  - now apply NoDup_filter.
Qed.

Lemma NoDup_by_recency (history : list Z) : NoDup (by_recency history).
Proof.
  unfold by_recency.
  assert (H : forall l, NoDup l ->
                        NoDup (fold_left (fun l k => move_to_front k l)
                                 history l)).
  { induction history as [|k history IH]; intros l Hl; [exact Hl|].
    cbn. apply IH. now apply NoDup_move_to_front. }
  apply H. constructor.
Qed.

(** What lies beyond the first [n] identities does not matter to the
    first [n] after a touch. *)
Lemma move_to_front_firstn (n : nat) (k : Z) (l : list Z) :
  NoDup l ->
  firstn n (move_to_front k (firstn n l)) = firstn n (move_to_front k l).
Proof.
  intros Hl. destruct n as [|m]; [reflexivity|].
  unfold move_to_front. cbn [firstn]. f_equal.
  set (p := fun k' => negb (k' =? k)%Z).
  rewrite <- (firstn_skipn (S m) l) at 2. rewrite filter_app, firstn_app.
  destruct (Nat.le_gt_cases m (List.length (filter p (firstn (S m) l))))
    as [Hlong | Hshort].
  - replace (m - List.length (filter p (firstn (S m) l))) with 0 by lia.
    cbn [firstn]. now rewrite app_nil_r.
  - assert (Hnodup : NoDup (firstn (S m) l)).
    { rewrite <- (firstn_skipn (S m) l) in Hl.
      now apply NoDup_app_remove_r in Hl. }
    pose proof (length_filter_nodup k _ Hnodup) as Hone. fold p in Hone.
    assert (Hall : List.length l <= S m).
    { destruct (Nat.le_gt_cases (List.length l) (S m)) as [H | H];
        [exact H|].
      rewrite length_firstn in Hone. lia. }
    rewrite (skipn_all2 l Hall). cbn [filter].
    now rewrite firstn_nil, app_nil_r.
Qed.

(** The cache of a state has the size it was created with and is not
    over it. *)
Definition bounded (s : state) : Prop :=
  Pylru.size (embeds_cache s) = 1000
  /\ List.length (Pylru.table (embeds_cache s)) <= 1000.

(** The identities on record, from the one touched last to the one whose
    touch is the oldest. *)
Definition tracked (s : state) : list Z :=
  map fst (Pylru.table (embeds_cache s)).

Lemma bounded_initial : bounded initial_state.
Proof. split; [reflexivity | cbn; lia]. Qed.

Section Facts.
Variable str_upper : string -> string.
Variable str_isalnum : string -> bool.
Variable requests_get : trace -> string -> result bytes.
Variable message_reply :
  trace -> Message -> string -> option MessageEmbed -> Message.

(** A run of calls of [post_modules], each for a message and the
    modules found for it. *)
Definition post_all (calls : list (Event * list (string * string)))
    (s : state) : state :=
  fold_left
    (fun s c => snd (post_modules message_reply (fst c) (message (fst c))
                       (snd c) s))
    calls s.

Lemma bounded_after_lookup (k : Z) (s : state) :
  bounded s -> bounded (after_lookup k s).
Proof.
  intros [Hsize Hlen]. unfold after_lookup, bounded.
  destruct (Pylru.lookup k _) as [v|] eqn:E; [|now split].
  cbn. split; [exact Hsize|].
  pose proof (length_remove_present k v _ E). lia.
Qed.

Lemma bounded_post (event_ : Event) (reply_to : Message)
    (modules : list (string * string)) (s : state) :
  bounded s ->
  bounded (snd (post_modules message_reply event_ reply_to modules s)).
Proof.
  intros Hs. rewrite post_unfold. cbv zeta.
  pose proof (bounded_after_lookup (id (message event_)) s Hs) as Hl.
  destruct modules as [|m rest]; [exact Hl|].
  destruct (Pylru.lookup _ _) as [[modify_c modify_m]|] eqn:E.
  - exact Hl.
  - cbn [snd]. destruct Hs as [Hsize Hlen]. unfold bounded.
    cbn [embeds_cache].
    destruct (setitem_bounded (id reply_to)
                (channel event_,
                 message_reply (effects s) reply_to
                   (reply_content (m :: rest)) (reply_embed (m :: rest)))
                (embeds_cache s)) as [H1 H2]; [lia | lia |].
    rewrite H1. split; [exact Hsize | lia].
Qed.

Lemma bounded_looked_up (s : state) (keys : list string) :
  bounded s -> bounded (looked_up s keys).
Proof. intros H. exact H. Qed.

Lemma bounded_command (event_ : Event) (message_ : Message) (s : state) :
  bounded s ->
  bounded (snd (command_modulename str_upper str_isalnum requests_get
                  message_reply event_ message_ s)).
Proof.
  intros Hs. rewrite command_unfold. cbv zeta.
  destruct (snd (asked _ _ _)); [exact Hs|].
  destruct (_ =? 1)%nat; [|exact Hs].
  apply bounded_post, bounded_looked_up, Hs.
Qed.

Lemma bounded_embeds (event_ : Event) (s : state) :
  bounded s ->
  bounded (snd (do_embeds str_upper str_isalnum requests_get message_reply
                  event_ s)).
Proof.
  intros Hs.
  pose proof (embeds_unfold str_upper str_isalnum requests_get
                message_reply event_ s) as Hu.
  cbv zeta in Hu. unfold do_embeds in *.
  destruct (truthy (content _)); [|exact Hs]. cbn [negb] in *.
  destruct (startswith _ _); [now apply bounded_command|].
  rewrite (Hu eq_refl eq_refl). exact Hs.
Qed.

(** Both handlers keep the cache within its thousand entries. *)
Lemma bounded_handlers (event_ : Event) (s : state) :
  bounded s ->
  bounded (snd (on_message_update str_upper str_isalnum requests_get
                  message_reply event_ s))
  /\ bounded (snd (on_message_create str_upper str_isalnum requests_get
                     message_reply event_ s)).
Proof.
  intros Hs. split; [|now apply bounded_embeds].
  unfold on_message_update.
  destruct (truthy (content _)); [|exact Hs]. cbn [negb].
  destruct (startswith _ _);
    [now apply bounded_command | now apply bounded_embeds].
Qed.

(** A reply or an edit for a message touches the identity of the
    message: it moves to the front of the identities on record, and the
    identity at the far end leaves when that makes one too many. *)
Lemma tracked_post (event_ : Event) (reply_to : Message)
    (modules : list (string * string)) (s : state) :
  modules <> [] ->
  id reply_to = id (message event_) ->
  bounded s ->
  tracked (snd (post_modules message_reply event_ reply_to modules s))
  = firstn 1000 (move_to_front (id (message event_)) (tracked s)).
Proof.
  intros Hmodules Hid [Hsize Hlen]. rewrite post_unfold, Hid. cbv zeta.
  destruct modules as [|m rest]; [contradiction|].
  unfold after_lookup, tracked, move_to_front in *.
  set (k := id (message event_)).
  destruct (Pylru.lookup k (Pylru.table (embeds_cache s)))
    as [[modify_c modify_m]|] eqn:E.
  - cbn [snd record_effect embeds_cache Pylru.table map fst].
    rewrite keys_remove.
    pose proof (length_remove_present k _ _ E) as Hless.
    rewrite <- (length_map fst (Pylru.remove k _)), keys_remove in Hless.
    rewrite firstn_all2; [reflexivity|]. cbn [List.length]. lia.
  - cbn [snd embeds_cache]. rewrite setitem_evicts by exact E.
    rewrite Hsize. cbn [map fst].
    rewrite (filter_absent k) by (now apply lookup_none_keys).
    destruct (Nat.ltb_spec (List.length (Pylru.table (embeds_cache s)))
                1000) as [Hroom | Hfull].
    + rewrite firstn_all2; [reflexivity|].
      cbn [List.length]. rewrite length_map. lia.
    + cbn [firstn]. f_equal. rewrite map_removelast, removelast_firstn_len.
      rewrite length_map.
      replace (List.length (Pylru.table (embeds_cache s))) with 1000 by lia.
      reflexivity.
Qed.

(** After a run of replies and edits, the cache holds the identities
    touched last, in the order of their last touch. *)
Lemma tracked_post_all (calls : list (Event * list (string * string))) :
  forall (s : state) (l : list Z),
    bounded s -> NoDup l -> tracked s = firstn 1000 l ->
    Forall (fun c => snd c <> []) calls ->
    tracked (post_all calls s)
    = firstn 1000
        (fold_left (fun l k => move_to_front k l)
           (map (fun c => id (message (fst c))) calls) l).
Proof.
  induction calls as [|[event_ modules] calls IH]; intros s l Hs Hl Htr Hall;
    [exact Htr|].
  inversion Hall as [|? ? Hmodules Hrest]; subst. cbn [snd] in Hmodules.
  cbn [post_all fold_left map fst snd].
  apply IH; [now apply bounded_post | now apply NoDup_move_to_front | | exact Hrest].
  rewrite tracked_post by (assumption || reflexivity).
  rewrite Htr. now apply move_to_front_firstn.
Qed.

End Facts.

(** C2. Take a message that leads to a reply, that is, at least one
    module to show, and a cache within its thousand entries.  If the
    cache holds a reply for the identity of the message, that reply is
    edited in place, nothing new is posted, and the record, unchanged,
    becomes the one touched last, the others keeping their order.  If it
    holds none, a reply is posted and the channel and the handle of the
    reply are recorded under the identity, as the record touched last;
    when the cache is full this drops the record at the far end and no
    other.  So after any run of replies and edits from the start, the
    cache holds the thousand identities touched last, in the order of
    their last touch: the record dropped is the one touched least
    recently.  The cache never holds more than a thousand entries,
    whatever the handlers receive. *)
Theorem post_modules_reconciles
    (str_upper : string -> string) (str_isalnum : string -> bool)
    (requests_get : trace -> string -> result bytes)
    (message_reply :
       trace -> Message -> string -> option MessageEmbed -> Message)
    (event_ : Event) (reply_to : Message)
    (modules : list (string * string)) (s : state) :
  modules <> [] ->
  id reply_to = id (message event_) ->
  bounded s ->
  let k := id (message event_) in
  let run := post_modules message_reply event_ reply_to modules s in
  let before := Pylru.table (embeds_cache s) in
  let after := Pylru.table (embeds_cache (snd run)) in
  fst run = Ret tt
  /\ (forall modify_c modify_m,
        Pylru.lookup k before = Some (modify_c, modify_m) ->
        effects (snd run)
        = effects s ++ [EvModify (channel_id modify_c) (id modify_m)
                          (reply_content modules) (built_embed modules)]
        /\ Pylru.lookup k after = Some (modify_c, modify_m)
        /\ (forall k', Pylru.lookup k' after = Pylru.lookup k' before)
        /\ after = (k, (modify_c, modify_m)) :: Pylru.remove k before)
  /\ (Pylru.lookup k before = None ->
      let sent := message_reply (effects s) reply_to
                    (reply_content modules) (reply_embed modules) in
      effects (snd run)
      = effects s ++ [EvReply k (reply_content modules)
                        (reply_embed modules)]
      /\ Pylru.lookup k after = Some (channel event_, sent)
      /\ after = (k, (channel event_, sent))
                 :: (if (List.length before <? 1000)%nat then before
                     else removelast before))
  /\ tracked (snd run) = firstn 1000 (move_to_front k (tracked s))
  /\ (forall calls : list (Event * list (string * string)),
        Forall (fun c => snd c <> []) calls ->
        tracked (post_all message_reply calls initial_state)
        = firstn 1000
            (by_recency (map (fun c => id (message (fst c))) calls)))
  /\ bounded (snd run)
  /\ bounded
       (snd (on_message_update str_upper str_isalnum requests_get
               message_reply event_ s))
  /\ bounded
       (snd (on_message_create str_upper str_isalnum requests_get
               message_reply event_ s)).
Proof.
  intros Hmodules Hid Hs k run before after.
  assert (Hrun : bounded (snd run)) by now apply bounded_post.
  destruct (bounded_handlers str_upper str_isalnum requests_get
              message_reply event_ s Hs) as [Hupdate Hcreate].
  assert (Htracked : tracked (snd run)
                     = firstn 1000 (move_to_front k (tracked s))).
  { now apply tracked_post. }
  assert (Hhistory :
            forall calls : list (Event * list (string * string)),
              Forall (fun c => snd c <> []) calls ->
              tracked (post_all message_reply calls initial_state)
              = firstn 1000
                  (by_recency (map (fun c => id (message (fst c))) calls))).
  { intros calls Hcalls.
    apply (tracked_post_all message_reply calls initial_state []);
      [apply bounded_initial | constructor | reflexivity | exact Hcalls]. }
  refine (conj _ (conj _ (conj _ (conj Htracked (conj Hhistory
            (conj Hrun (conj Hupdate Hcreate)))))));
    clear Hrun Hupdate Hcreate Htracked Hhistory; subst after run;
    rewrite post_unfold;
    cbv zeta; fold k; fold before;
    (destruct modules as [|m rest]; [contradiction|]);
    unfold after_lookup; fold k; fold before.
  - now destruct (Pylru.lookup k before) as [[c0 m0]|].
  - intros modify_c modify_m E. rewrite E.
    cbn [fst snd effects embeds_cache record_effect Pylru.table].
    split; [reflexivity|]. split; [|split; [|reflexivity]].
    + cbn. now rewrite Z.eqb_refl.
    + intros k'. cbn. destruct (Z.eqb_spec k' k) as [->|Hk'].
      * now rewrite E.
      * now apply lookup_remove_other.
  - intros E. rewrite E. cbn [fst snd effects embeds_cache].
    rewrite Hid. fold k. split; [reflexivity|]. split.
    + apply lookup_setitem.
    + rewrite setitem_evicts by exact E.
      destruct Hs as [-> _]. reflexivity.
Qed.

(** A first reply and the state it leaves; the state after a thousand
    replies, to the messages 0 to 999 in that order. *)
Definition replied_once : state :=
  snd (post_modules chat (incoming 7 "foo !A123") (mkMessage 7 "foo !A123")
         [("A123", "Mocked active module")] initial_state).

Definition thousand_replies : state :=
  post_all chat
    (map (fun i => (incoming (Z.of_nat i) "foo !A123",
                    [("A123", "Mocked active module")]))
       (seq 0 1000))
    initial_state.

Lemma post_modules_reconciles_witness :
  effects
    (snd (post_modules chat (incoming 7 "foo !A012")
            (mkMessage 7 "foo !A012")
            [("A012", "Mocked active short course")] replied_once))
  = effects replied_once
    ++ [EvModify 42 9000 "A012: Mocked active short course" []]
  /\ (let after :=
        Pylru.table
          (embeds_cache
             (snd (post_modules chat (incoming 5000 "foo !A012")
                     (mkMessage 5000 "foo !A012")
                     [("A012", "Mocked active short course")]
                     thousand_replies))) in
      Pylru.lookup 5000 after
      = Some (mkChannel 42,
              mkMessage 10000 "A012: Mocked active short course")
      /\ Pylru.lookup 0 after = None
      /\ Pylru.lookup 1 after
         = Some (mkChannel 42, mkMessage 9001 "A123: Mocked active module")
      /\ List.length after = 1000)
  /\ tracked
       (post_all chat
          [(incoming 7 "foo !A123", [("A123", "Mocked active module")]);
           (incoming 8 "foo !A012", [("A012", "Mocked active short course")]);
           (incoming 7 "foo !A012", [("A012", "Mocked active short course")])]
          initial_state)
     = [7%Z; 8%Z].
Proof.
  split; [|split].
  - assert (Hb : bounded replied_once)
      by (split; [reflexivity | vm_compute; lia]).
    destruct (post_modules_reconciles ascii_upper ascii_isalnum archive chat
                (incoming 7 "foo !A012") (mkMessage 7 "foo !A012")
                [("A012", "Mocked active short course")] replied_once
                ltac:(discriminate) eq_refl Hb) as (_ & Hedit & _).
    exact (proj1 (Hedit (mkChannel 42)
                    (mkMessage 9000 "A123: Mocked active module") eq_refl)).
  - assert (Hb : bounded thousand_replies)
      by (split; [vm_compute; reflexivity | vm_compute; lia]).
    destruct (post_modules_reconciles ascii_upper ascii_isalnum archive chat
                (incoming 5000 "foo !A012") (mkMessage 5000 "foo !A012")
                [("A012", "Mocked active short course")] thousand_replies
                ltac:(discriminate) eq_refl Hb) as (_ & _ & Hnew & _).
    assert (Hmiss : Pylru.lookup 5000
                      (Pylru.table (embeds_cache thousand_replies)) = None)
      by (vm_compute; reflexivity).
    destruct (Hnew Hmiss) as (_ & Hrecorded & Hafter).
    cbv zeta. split.
    + etransitivity; [exact Hrecorded|]. vm_compute. reflexivity.
    + rewrite Hafter. vm_compute. repeat split; reflexivity.
  - assert (Hb : bounded initial_state) by apply bounded_initial.
    destruct (post_modules_reconciles ascii_upper ascii_isalnum archive chat
                (incoming 7 "foo !A123") (mkMessage 7 "foo !A123")
                [("A123", "Mocked active module")] initial_state
                ltac:(discriminate) eq_refl Hb)
      as (_ & _ & _ & _ & Hhistory & _).
    rewrite Hhistory; [reflexivity|].
    repeat constructor; discriminate.
Defined.

End Reconciler.

(** *** The shape of the reply *)

Module Formatter.
Import PyStr OUModulesBotPlugin Plugin Demo.

Lemma two_or_more (modules : list (string * string)) :
  2 <= List.length modules -> (1 <? List.length modules)%nat = true.
Proof. intros H. apply Nat.ltb_lt. lia. Qed.

(** C8, as the code has it. One module: the content is the code, a
    colon, a blank and the title, with no embed in a new reply and an
    empty one in an edit; a module carries no url and the title is never
    a link.  Two modules or more: the content is empty and the embed
    has one inline field for each module, in order, whose name is the
    code and whose value is the title between a star and blanks.
    Nothing else is added to the content. *)
Theorem reply_format
    (message_reply :
       trace -> Message -> string -> option MessageEmbed -> Message)
    (event_ : Event) (reply_to : Message) (s : state) :
  let recorded :=
    Pylru.lookup (id (message event_)) (Pylru.table (embeds_cache s)) in
  (forall code title : string,
      let run := post_modules message_reply event_ reply_to
                   [(code, title)] s in
      let content_ := (code ++ ": " ++ title)%string in
      effects (snd run)
      = effects s
        ++ [match recorded with
            | None => EvReply (id reply_to) content_ None
            | Some (modify_c, modify_m) =>
                EvModify (channel_id modify_c) (id modify_m) content_ []
            end])
  /\ (forall modules : list (string * string),
        2 <= List.length modules ->
        let run := post_modules message_reply event_ reply_to modules s in
        let fields :=
          map (fun m => mkField (fst m) (" * " ++ snd m ++ " ")%string true)
            modules in
        effects (snd run)
        = effects s
          ++ [match recorded with
              | None => EvReply (id reply_to) "" (Some fields)
              | Some (modify_c, modify_m) =>
                  EvModify (channel_id modify_c) (id modify_m) "" fields
              end]).
Proof.
  intros recorded. split.
  - intros code title run content_. subst run. rewrite post_unfold.
    cbv zeta. unfold after_lookup. fold recorded.
    now destruct recorded as [[modify_c modify_m]|].
  - intros modules Hlen run fields. subst run. rewrite post_unfold.
    cbv zeta. unfold after_lookup, reply_content, reply_embed, built_embed.
    fold recorded. rewrite (two_or_more modules Hlen).
    destruct modules as [|m rest]; [cbn in Hlen; lia|].
    now destruct recorded as [[modify_c modify_m]|].
Qed.

Lemma reply_format_witness :
  effects
    (snd (post_modules chat (incoming 7 "!A123 and !A012")
            (mkMessage 7 "!A123 and !A012")
            [("A123", "Mocked active module");
             ("A012", "Mocked active short course")] initial_state))
  = [EvReply 7 ""
       (Some [mkField "A123" " * Mocked active module " true;
              mkField "A012" " * Mocked active short course " true])].
Proof.
  apply (proj2 (reply_format chat (incoming 7 "!A123 and !A012")
                  (mkMessage 7 "!A123 and !A012") initial_state)
           [("A123", "Mocked active module");
            ("A012", "Mocked active short course")]).
  cbn. lia.
Defined.

(** C8, as stated, fails: no notice is appended and no link is made.
    The reply for one module is the code and the title and nothing more,
    and the reply for two modules has an empty content, which ends with
    no notice at all. *)
Lemma reply_carries_no_notice :
  effects (snd (post_modules chat (incoming 7 "foo !A123")
                  (mkMessage 7 "foo !A123")
                  [("A123", "Mocked active module")] initial_state))
  = [EvReply 7 "A123: Mocked active module" None]
  /\ (exists embed,
        effects (snd (post_modules chat (incoming 7 "!A123 and !A012")
                        (mkMessage 7 "!A123 and !A012")
                        [("A123", "Mocked active module");
                         ("A012", "Mocked active short course")]
                        initial_state))
        = [EvReply 7 "" embed])
  /\ (forall body notice : string,
        notice <> EmptyString -> (body ++ notice)%string <> EmptyString).
Proof.
  split; [reflexivity|]. split; [eexists; reflexivity|].
  intros body notice Hnotice H.
  destruct body; [now apply Hnotice | discriminate].
Qed.

End Formatter.

(** *** Failures of the transport and malformed responses *)

Module Failures.
Import PyStr Json OuSparqlUtils Catalog.

(** The list that the loop of [query_data_open_ac_uk] runs over, or the
    exception raised before the loop starts. *)
Definition bindings_of (http_result : response) : result (list json) :=
  match resp_json http_result with
  | Raise e => Raise e
  | Ret json_ =>
      match py_getitem json_ (JStr "results") with
      | Raise e => Raise e
      | Ret results =>
          match py_getitem results (JStr "bindings") with
          | Raise e => Raise e
          | Ret bindings => py_iter bindings
          end
      end
  end.

Lemma parse_body_bindings (http_result : response) :
  parse_body http_result
  = match bindings_of http_result with
    | Raise e => ([], Some e)
    | Ret items => append_loop items []
    end.
Proof.
  unfold parse_body, bindings_of.
  destruct (resp_json http_result) as [json_ | e]; [|reflexivity].
  destruct (py_getitem json_ _) as [results | e]; [|reflexivity].
  destruct (py_getitem results _) as [bindings | e]; [|reflexivity].
  now destruct (py_iter bindings).
Qed.


(** Four networks: one whose reads time out, one to which no
    connection can be made in time, one that answers with something
    that is not JSON, and one whose second binding is not an object. *)
Definition read_timeout_net : trace -> sparql_request -> result response :=
  fun _ _ => Raise ReadTimeout.









End Failures.

(** *** More on the structured queries *)

Module Queries.
Import PyStr Json OuSparqlUtils Catalog.

(** The requests of a trace, in order. *)
Definition sent (t : trace) : list sparql_request :=
  flat_map (fun e => match e with EvGet req => [req] | _ => [] end) t.

(** The value held by a cell of a binding, as the server sends it. *)
Definition cell_value (cell : json) : option json :=
  match cell with
  | JObj c => assoc "value" c
  | _ => None
  end.

(** [d] is the dict read from the object [fields]: the same names, in
    order, each with the value of its cell. *)
Definition reads_as (fields : list (string * json)) (d : pydict) : Prop :=
  NoDup (map fst fields)
  /\ Forall2 (fun kf kv => fst kv = JStr (fst kf)
                           /\ cell_value (snd kf) = Some (snd kv))
       fields d.

Lemma sent_app (t1 t2 : trace) : sent (t1 ++ t2) = sent t1 ++ sent t2.
Proof. apply flat_map_app. Qed.

Lemma assoc_in_nodup {V : Type} (k : string) (v : V)
    (d : list (string * V)) :
  NoDup (map fst d) -> In (k, v) d -> assoc k d = Some v.
Proof.
  induction d as [|[k' v'] d IH]; intros Hnd Hin; [contradiction|].
  cbn [map fst] in Hnd. inversion Hnd as [|? ? Hnotin Hnd']; subst.
  cbn [assoc]. destruct Hin as [[= -> ->] | Hin].
  - now rewrite String.eqb_refl.
  - destruct (String.eqb_spec k k') as [->|_]; [|now apply IH].
    exfalso. apply Hnotin. apply in_map_iff. now exists (k', v).
Qed.

Lemma comprehension_loop_reads (fields sub : list (string * json))
    (d : pydict) :
  NoDup (map fst fields) ->
  incl sub fields ->
  Forall2 (fun kf kv => fst kv = JStr (fst kf)
                        /\ cell_value (snd kf) = Some (snd kv)) sub d ->
  comprehension_loop (JObj fields) (map (fun kv => JStr (fst kv)) sub)
  = Ret d.
Proof.
  intros Hnd Hincl Hall. induction Hall as [|[k cell] [k' v] sub d [Hk Hv] _ IH];
    [reflexivity|].
  cbn [fst snd] in Hk, Hv. subst k'.
  cbn [map comprehension_loop fst py_getitem].
  rewrite (assoc_in_nodup k cell fields Hnd) by (apply Hincl; now left).
  destruct cell as [| | | | |items|c]; try discriminate.
  cbn [cell_value] in Hv. cbn [py_getitem]. rewrite Hv.
  rewrite IH; [reflexivity|].
  intros x Hx. apply Hincl. now right.
Qed.

Lemma binding_of_reads (fields : list (string * json)) (d : pydict) :
  reads_as fields d -> binding_of (JObj fields) = Ret d.
Proof.
  intros [Hnd Hall]. unfold binding_of. cbn [py_iter].
  apply comprehension_loop_reads; [exact Hnd | apply incl_refl | exact Hall].
Qed.

Lemma append_loop_reads (objects : list (list (string * json)))
    (ds : list pydict) :
  Forall2 reads_as objects ds ->
  forall retval, append_loop (map JObj objects) retval = (retval ++ ds, None).
Proof.
  intros Hall. induction Hall as [|fields d objects ds Hd _ IH];
    intros retval; cbn [map append_loop].
  - now rewrite app_nil_r.
  - rewrite (binding_of_reads _ _ Hd), IH, <- app_assoc. reflexivity.
Qed.

Section Facts.
Variable httpx_get : trace -> sparql_request -> result response.

Lemma sent_query (q : sparql_query) (offset limit : Z) (t : trace) :
  sent (snd (query_data_open_ac_uk httpx_get q offset limit t))
  = sent t ++ [Request q offset limit].
Proof.
  rewrite query_unfold. cbv zeta.
  destruct (httpx_get t _) as [http_result | e].
  - destruct (parse_body http_result) as [retval [e|]]; cbn [snd];
      now rewrite sent_app.
  - destruct (is_ReadTimeout e); cbn [snd]; now rewrite sent_app.
Qed.

End Facts.

(** X1. A response whose bindings are objects with distinct names and
    cells holding a value is read back whole: the query returns one dict
    for each binding, in order, with the names and the values of the
    cells, sends its one request and logs nothing.  The list is as long
    as the response makes it, whatever [limit] was asked. *)
Theorem query_reads_bindings
    (httpx_get : trace -> sparql_request -> result response)
    (q : sparql_query) (offset limit : Z) (t : trace)
    (http_result : response) (objects : list (list (string * json)))
    (ds : list pydict) :
  httpx_get t (Request q offset limit) = Ret http_result ->
  Failures.bindings_of http_result = Ret (map JObj objects) ->
  Forall2 reads_as objects ds ->
  query_data_open_ac_uk httpx_get q offset limit t
  = (Ret ds, t ++ [EvGet (Request q offset limit)])
  /\ List.length ds = List.length objects.
Proof.
  intros Hget Hbindings Hall. split.
  - rewrite query_unfold. cbv zeta. rewrite Hget.
    rewrite Failures.parse_body_bindings, Hbindings.
    now rewrite (append_loop_reads _ _ Hall []).
  - symmetry. exact (Forall2_length Hall).
Qed.

(** A catalogue that answers every query with the same two courses. *)
Definition two_courses : trace -> sparql_request -> result response :=
  fun _ _ =>
    Ret (Resolution.bindings_body
           [JObj [("id", Resolution.cell "A123");
                  ("title", Resolution.cell "Mocked active module")];
            JObj [("id", Resolution.cell "A012");
                  ("title", Resolution.cell "Mocked active short course")]]).

Lemma query_reads_bindings_witness :
  query_data_open_ac_uk two_courses (Query XCRI_QUERY "") 0 1 []
  = (Ret [[(JStr "id", JStr "A123");
           (JStr "title", JStr "Mocked active module")];
          [(JStr "id", JStr "A012");
           (JStr "title", JStr "Mocked active short course")]],
     [EvGet (Request (Query XCRI_QUERY "") 0 1)])
  /\ 2 = 2.
Proof.
  apply (query_reads_bindings two_courses (Query XCRI_QUERY "") 0 1 []
           (Resolution.bindings_body
              [JObj [("id", Resolution.cell "A123");
                     ("title", Resolution.cell "Mocked active module")];
               JObj [("id", Resolution.cell "A012");
                     ("title",
                      Resolution.cell "Mocked active short course")]])
           [[("id", Resolution.cell "A123");
             ("title", Resolution.cell "Mocked active module")];
            [("id", Resolution.cell "A012");
             ("title", Resolution.cell "Mocked active short course")]]).
  - reflexivity.
  - reflexivity.
  - repeat constructor; cbn; intuition discriminate.
Defined.

Section Resolver.
Variable httpx_get : trace -> sparql_request -> result response.

(** The request of a resolution for a template. *)
Definition request_for (code_ : string) (template : query_template)
    : sparql_request :=
  Request (Query template (filter_of (upper code_))) 0 1.

Lemma sent_courses_layer (code_ : string) (t : trace) :
  sent (snd (courses_layer httpx_get code_ t))
  = sent t ++ [request_for code_ XCRI_QUERY].
Proof.
  unfold courses_layer. rewrite sent_query, sent_app. cbn.
  now rewrite app_nil_r.
Qed.

Lemma sent_qualifications_layer (code_ : string) (t : trace) :
  sent (snd (qualifications_layer httpx_get code_ t))
  = sent t ++ [request_for code_ XCRI_QUERY;
               request_for code_ XCRI_QUALIFICATIONS_QUERY].
Proof.
  unfold qualifications_layer.
  rewrite sent_query, sent_courses_layer, <- app_assoc. reflexivity.
Qed.

Lemma sent_oldcourses_layer (code_ : string) (t : trace) :
  sent (snd (oldcourses_layer httpx_get code_ t))
  = sent t ++ [request_for code_ XCRI_QUERY;
               request_for code_ XCRI_QUALIFICATIONS_QUERY;
               request_for code_ OLDCOURSE_QUERY].
Proof.
  unfold oldcourses_layer.
  rewrite sent_query, sent_app, sent_qualifications_layer. cbn.
  rewrite app_nil_r, <- app_assoc. reflexivity.
Qed.

End Resolver.

(** X2. Whatever the network does, a resolution sends one, two or three
    requests, always in the order courses, qualifications, old courses,
    each with offset 0, limit 1 and the filter on the code in upper
    case.  The third request is sent exactly when the first two queries
    returned and gave nothing. *)
Theorem resolution_sends_at_most_three
    (httpx_get : trace -> sparql_request -> result response)
    (code_ : string) (t : trace) :
  let run := find_module_or_qualification httpx_get code_ t in
  exists n : nat,
    1 <= n <= 3
    /\ sent (snd run)
       = sent t ++ firstn n [request_for code_ XCRI_QUERY;
                             request_for code_ XCRI_QUALIFICATIONS_QUERY;
                             request_for code_ OLDCOURSE_QUERY]
    /\ (n = 3 <->
        fst (courses_layer httpx_get code_ t) = Ret []
        /\ fst (qualifications_layer httpx_get code_ t) = Ret []).
Proof.
  intros run. subst run. rewrite find_unfold.
  pose proof (sent_courses_layer httpx_get code_ t) as Sc.
  pose proof (sent_qualifications_layer httpx_get code_ t) as Sq.
  pose proof (sent_oldcourses_layer httpx_get code_ t) as So.
  destruct (courses_layer httpx_get code_ t) as [[courses | e] t1].
  - destruct (qualifications_layer httpx_get code_ t)
      as [[qualifications | e] t2].
    + destruct courses as [|b rest].
      * destruct qualifications as [|b rest].
        -- exists 3. split; [lia|]. cbn [app fst snd firstn] in *.
           split; [|tauto].
           destruct (oldcourses_layer httpx_get code_ t)
             as [[[|b rest] | e] t3]; cbn [snd] in *;
             rewrite ?sent_app, So; cbn; now rewrite ?app_nil_r.
        -- exists 2. split; [lia|]. cbn [app fst snd firstn] in *.
           split; [rewrite sent_app, Sq; cbn; now rewrite app_nil_r|].
           split; [lia | intros [_ [=]]].
      * exists 2. split; [lia|]. cbn [app fst snd firstn] in *.
        split; [rewrite sent_app, Sq; cbn; now rewrite app_nil_r|].
        split; [lia | intros [[=] _]].
    + exists 2. split; [lia|]. cbn [fst snd firstn] in *.
      split; [exact Sq|]. split; [lia | intros [_ [=]]].
  - exists 1. split; [lia|]. cbn [fst snd firstn] in *.
    split; [exact Sc|]. split; [lia | intros [[=] _]].
Qed.

(** X3. The resolver does not look at the case of the code: two codes
    that agree in upper case are resolved by the same run.  The tuple it
    returns carries the code in upper case, whatever the binding says. *)
Theorem resolution_ignores_case
    (httpx_get : trace -> sparql_request -> result response)
    (code_ other : string) (t : trace) :
  (upper code_ = upper other ->
   find_module_or_qualification httpx_get code_ t
   = find_module_or_qualification httpx_get other t)
  /\ (forall r : Result,
        fst (find_module_or_qualification httpx_get code_ t) = Ret (Some r) ->
        code r = upper code_ /\ upper (code r) = code r).
Proof.
  split.
  - intros H. unfold find_module_or_qualification. cbv zeta.
    now rewrite H.
  - intros r Hr.
    assert (Hanswer : forall b, answer code_ b = Ret (Some r) ->
                                code r = upper code_).
    { intros b. unfold answer, build_result.
      destruct (dict_item "title" b); [|discriminate].
      now intros [= <-]. }
    assert (Hcode : code r = upper code_).
    { rewrite find_unfold in Hr.
      destruct (courses_layer httpx_get code_ t) as [[courses | e] t1];
        [|discriminate].
      destruct (qualifications_layer httpx_get code_ t)
        as [[qualifications | e] t2]; [|discriminate].
      destruct (courses ++ qualifications) as [|b rest];
        [|exact (Hanswer b Hr)].
      destruct (oldcourses_layer httpx_get code_ t)
        as [[[|b rest] | e] t3]; try discriminate.
      exact (Hanswer b Hr). }
    split; [exact Hcode|]. rewrite Hcode. apply Plugin.upper_idempotent.
Qed.

Lemma resolution_ignores_case_witness :
  find_module_or_qualification Resolution.oldcourse_only "m101" []
  = find_module_or_qualification Resolution.oldcourse_only "M101" []
  /\ code (mkResult "M101" (JStr "Mathematics: a foundation course") None)
     = upper "m101".
Proof.
  split.
  - apply (proj1 (resolution_ignores_case Resolution.oldcourse_only
                    "m101" "M101" [])). reflexivity.
  - apply (proj2 (resolution_ignores_case Resolution.oldcourse_only
                    "m101" "M101" [])
             (mkResult "M101" (JStr "Mathematics: a foundation course")
                None)).
    reflexivity.
Defined.

(** X4. A read that times out in one of the two queries of [query_xcri]
    costs that query only: when the courses time out the result is what
    the qualifications query gives, after a warning, and when the
    qualifications time out the result is the courses. *)
Theorem query_xcri_survives_read_timeout
    (httpx_get : trace -> sparql_request -> result response)
    (limit : Z) (addfilter : string) (t : trace) :
  let courses_request := Request (Query XCRI_QUERY addfilter) 0 limit in
  let qualifications_request :=
    Request (Query XCRI_QUALIFICATIONS_QUERY addfilter) 0 limit in
  (httpx_get t courses_request = Raise ReadTimeout ->
   query_xcri httpx_get limit addfilter t
   = query_data_open_ac_uk httpx_get
       (Query XCRI_QUALIFICATIONS_QUERY addfilter) 0 limit
       (t ++ [EvGet courses_request; timeout_record]))
  /\ (forall (courses : list pydict) (t1 : trace),
        query_data_open_ac_uk httpx_get (Query XCRI_QUERY addfilter)
          0 limit t = (Ret courses, t1) ->
        httpx_get t1 qualifications_request = Raise ReadTimeout ->
        query_xcri httpx_get limit addfilter t
        = (Ret courses, t1 ++ [EvGet qualifications_request; timeout_record])).
Proof.
  intros courses_request qualifications_request. split.
  - intros Htimeout. unfold query_xcri, bind.
    rewrite (query_unfold httpx_get (Query XCRI_QUERY addfilter)).
    cbv zeta. fold courses_request. rewrite Htimeout. cbn [is_ReadTimeout].
    destruct (query_data_open_ac_uk _ _ _ _ _) as [[qualifications | e] t2];
      reflexivity.
  - intros courses t1 Hcourses Htimeout. unfold query_xcri, bind.
    rewrite Hcourses.
    rewrite (query_unfold httpx_get (Query XCRI_QUALIFICATIONS_QUERY addfilter)).
    cbv zeta. fold qualifications_request. rewrite Htimeout.
    cbn [is_ReadTimeout]. unfold ret. now rewrite app_nil_r.
Qed.

(** A catalogue whose qualifications cannot be read in time. *)
Definition slow_qualifications
    : trace -> sparql_request -> result response :=
  fun _ req =>
    match q_template (r_query req) with
    | XCRI_QUALIFICATIONS_QUERY => Raise ReadTimeout
    | _ => Ret (Resolution.bindings_body [])
    end.

Lemma query_xcri_survives_read_timeout_witness :
  query_xcri Failures.read_timeout_net 1 "" []
  = query_data_open_ac_uk Failures.read_timeout_net
      (Query XCRI_QUALIFICATIONS_QUERY "") 0 1
      [EvGet (Request (Query XCRI_QUERY "") 0 1); timeout_record]
  /\ query_xcri slow_qualifications 1 "" []
     = (Ret [],
        [EvGet (Request (Query XCRI_QUERY "") 0 1)]
        ++ [EvGet (Request (Query XCRI_QUALIFICATIONS_QUERY "") 0 1);
            timeout_record]).
Proof.
  split.
  - apply (proj1 (query_xcri_survives_read_timeout Failures.read_timeout_net
                    1 "" [])).
    reflexivity.
  - apply (proj2 (query_xcri_survives_read_timeout slow_qualifications
                    1 "" [])); reflexivity.
Defined.

End Queries.

(** *** More on the liveness check *)

Module Attempts.
Import PyStr Json OuSparqlUtils Liveness.

(** The urls asked for and the pauses taken in a trace, in order. *)
Definition targets (t : trace) : list string :=
  flat_map (fun e => match e with EvHead u => [u] | _ => [] end) t.

Definition pauses (t : trace) : list Z :=
  flat_map (fun e => match e with EvSleep ms => [ms] | _ => [] end) t.

Lemma targets_app (t1 t2 : trace) :
  targets (t1 ++ t2) = targets t1 ++ targets t2.
Proof. apply flat_map_app. Qed.

Lemma pauses_app (t1 t2 : trace) : pauses (t1 ++ t2) = pauses t1 ++ pauses t2.
Proof. apply flat_map_app. Qed.

Definition is_line (e : event) : bool :=
  match e with EvPrint _ => true | _ => false end.

(** One attempt as it stands in the trace: the line that announces it,
    the pause of 100 ms, the request to [u] right after the pause, and the
    lines printed once the request is over. *)
Definition attempt_on (u : string) (round : trace) : Prop :=
  exists lines : trace,
    round = trying u ++ EvHead u :: lines /\ forallb is_line lines = true.

Section Facts.
Variable httpx_head : trace -> string -> result head_response.

(** What a run that checks its url adds to the trace. *)
Lemma checked_run (url_ : option string) (code_ : string) (retries : Z) :
  falsy_url url_ = false ->
  forall (n : nat) (retry_num : Z) (t : trace),
    Z.to_nat (retries - retry_num) = n ->
    exists (k : nat) (b : bool) (emitted : trace),
      1 <= k <= S n
      /\ is_really_active httpx_head url_ code_ retries retry_num t
         = (Ret (Some (Some b)), t ++ emitted)
      /\ targets emitted = repeat (url_text url_) k
      /\ pauses emitted = repeat 100%Z k
      /\ exists rounds : list trace,
          emitted = concat rounds
          /\ List.length rounds = k
          /\ Forall (attempt_on (url_text url_)) rounds.
Proof.
  assert (Hone : forall (u : string) (line : event),
             is_line line = true ->
             exists rounds : list trace,
               trying u ++ [EvHead u; line] = concat rounds
               /\ List.length rounds = 1
               /\ Forall (attempt_on u) rounds).
  { intros u line Hline. exists [trying u ++ [EvHead u; line]].
    cbn [concat]. rewrite app_nil_r. split; [reflexivity|].
    split; [reflexivity|]. constructor; [|constructor].
    exists [line]. split; [reflexivity|]. cbn. now rewrite Hline. }
  intros Hurl n. induction n as [|n IH]; intros retry_num t Hn;
    rewrite is_really_active_unfold, Hurl; cbv zeta;
    destruct (httpx_head (t ++ trying (url_text url_)) (url_text url_))
      as [r | e].
  - exists 1, (verdict code_ r),
      (trying (url_text url_) ++ [EvHead (url_text url_); report code_ r]).
    split; [lia|]. split; [now rewrite app_assoc|].
    split; [reflexivity|]. split; [reflexivity | now apply Hone].
  - assert ((retry_num + 1 <=? retries)%Z = false) as ->
        by (apply Z.leb_gt; lia).
    exists 1, false,
      (trying (url_text url_) ++ [EvHead (url_text url_); failed e]).
    split; [lia|]. split; [now rewrite app_assoc|].
    split; [reflexivity|]. split; [reflexivity | now apply Hone].
  - exists 1, (verdict code_ r),
      (trying (url_text url_) ++ [EvHead (url_text url_); report code_ r]).
    split; [lia|]. split; [now rewrite app_assoc|].
    split; [reflexivity|]. split; [reflexivity | now apply Hone].
  - assert ((retry_num + 1 <=? retries)%Z = true) as ->
        by (apply Z.leb_le; lia).
    destruct (IH (retry_num + 1)%Z
                ((t ++ trying (url_text url_)) ++
                 [EvHead (url_text url_); failed e;
                  retrying (retry_num + 1) retries]))
      as (k & b & emitted & Hk & Hrun & Htargets & Hpauses & rounds
          & Hrounds & Hlen & Hall); [lia|].
    exists (S k), b,
      (trying (url_text url_) ++
       [EvHead (url_text url_); failed e; retrying (retry_num + 1) retries]
       ++ emitted).
    split; [lia|]. split; [|split; [|split]].
    + rewrite Hrun. f_equal. now rewrite <- !app_assoc.
    + rewrite !targets_app, Htargets. reflexivity.
    + rewrite !pauses_app, Hpauses. reflexivity.
    + exists ((trying (url_text url_) ++
               [EvHead (url_text url_); failed e;
                retrying (retry_num + 1) retries]) :: rounds).
      cbn [concat List.length]. rewrite <- Hrounds, Hlen.
      split; [now rewrite <- !app_assoc|]. split; [reflexivity|].
      constructor; [|exact Hall].
      exists [failed e; retrying (retry_num + 1) retries].
      split; reflexivity.
Qed.

End Facts.

(** X5. Whatever the network does, the check of a url that is not
    empty returns [True] or [False], never [None] and never an
    exception.  It sends at least one request and at most one more than
    [retries - retry_num], all of them to the url given, and it pauses
    100 ms before each of them: what it adds to the trace is one round
    for each request, made of the line that announces the attempt, the
    pause, the request right after the pause, and the lines printed once
    the request is over. *)
Theorem is_really_active_bounded
    (httpx_head : trace -> string -> result head_response)
    (u : string) (code_ : string) (retries retry_num : Z) (t : trace) :
  u <> EmptyString ->
  exists (k : nat) (b : bool) (emitted : trace),
    1 <= k <= 1 + Z.to_nat (retries - retry_num)
    /\ is_really_active httpx_head (Some u) code_ retries retry_num t
       = (Ret (Some (Some b)), t ++ emitted)
    /\ targets emitted = repeat u k
    /\ pauses emitted = repeat 100%Z k
    /\ exists rounds : list trace,
        emitted = concat rounds
        /\ List.length rounds = k
        /\ Forall (attempt_on u) rounds.
Proof.
  intros Hu.
  exact (checked_run httpx_head (Some u) code_ retries (falsy_url_Some u Hu)
           (Z.to_nat (retries - retry_num)) retry_num t eq_refl).
Qed.

Lemma is_really_active_bounded_witness :
  exists (k : nat) (b : bool) (emitted : trace),
    1 <= k <= 1 + Z.to_nat (2 - 0)
    /\ is_really_active (server_up_at 1)
         (Some "http://www.open.ac.uk/courses/qualifications/b31") "b31"
         2 0 []
       = (Ret (Some (Some b)), [] ++ emitted)
    /\ targets emitted
       = repeat "http://www.open.ac.uk/courses/qualifications/b31" k
    /\ pauses emitted = repeat 100%Z k
    /\ exists rounds : list trace,
        emitted = concat rounds
        /\ List.length rounds = k
        /\ Forall
             (attempt_on "http://www.open.ac.uk/courses/qualifications/b31")
             rounds.
Proof.
  apply (is_really_active_bounded (server_up_at 1)
           "http://www.open.ac.uk/courses/qualifications/b31" "b31" 2 0 []).
  discriminate.
Defined.

(** X6. Two edges of the check.  An empty url is no url: the check
    returns [None] and does nothing.  When no retry is left, that is,
    when [retries] is not above [retry_num] (a negative [retries], for
    one), a single request is sent and its failure gives [False] at
    once. *)
Theorem is_really_active_edges
    (httpx_head : trace -> string -> result head_response)
    (url_ : option string) (code_ : string) (retries retry_num : Z)
    (t : trace) :
  is_really_active httpx_head (Some EmptyString) code_ retries retry_num t
  = (Ret (Some None), t)
  /\ (falsy_url url_ = false ->
      (retries <= retry_num)%Z ->
      let run := is_really_active httpx_head url_ code_ retries retry_num t in
      heads (snd run) = heads t + 1
      /\ forall e,
          httpx_head (t ++ trying (url_text url_)) (url_text url_) = Raise e ->
          run = (Ret (Some (Some false)),
                 t ++ trying (url_text url_)
                 ++ [EvHead (url_text url_); failed e])).
Proof.
  split.
  - now rewrite is_really_active_unfold.
  - intros Hurl Hretries run. subst run.
    rewrite is_really_active_unfold, Hurl. cbv zeta.
    assert ((retry_num + 1 <=? retries)%Z = false) as ->
        by (apply Z.leb_gt; lia).
    destruct (httpx_head _ _) as [r | e'].
    + split; [|discriminate]. cbn [snd].
      rewrite heads_app, heads_trying. cbn. lia.
    + split.
      * cbn [snd]. rewrite heads_app, heads_trying. cbn. lia.
      * intros e [= <-]. now rewrite <- app_assoc.
Qed.

Lemma is_really_active_edges_witness :
  heads (snd (is_really_active server_down
                (Some "http://www.open.ac.uk/courses/b31") "B31" (-1) 0 []))
  = heads [] + 1.
Proof.
  apply (proj2 (is_really_active_edges server_down
                  (Some "http://www.open.ac.uk/courses/b31") "B31" (-1) 0 [])
           eq_refl).
  lia.
Defined.

End Attempts.

(** *** The two patterns, read against the text *)

Module Patterns.
Import PyStr PyStrFacts OUModulesBotPlugin Plugin.

Definition not_line_feed (c : ascii) : bool :=
  negb (Ascii.eqb c (ascii_of_nat 10)).

Definition not_mark (c : ascii) : bool := negb (Ascii.eqb c "!").

(** [p] fails on the first character of [s], if there is one. *)
Definition stops (p : ascii -> bool) (s : string) : bool :=
  match s with
  | EmptyString => true
  | String c _ => negb (p c)
  end.

Lemma str_app_assoc (a b c : string) :
  ((a ++ b) ++ c)%string = (a ++ b ++ c)%string.
Proof. induction a as [|x a IH]; cbn; [reflexivity | now rewrite IH]. Qed.

Lemma str_length_app (a b : string) :
  String.length (a ++ b) = String.length a + String.length b.
Proof. induction a as [|x a IH]; cbn; [reflexivity | now rewrite IH]. Qed.

Lemma all_str_app (p : ascii -> bool) (a b : string) :
  all_str p (a ++ b) = all_str p a && all_str p b.
Proof.
  induction a as [|x a IH]; cbn; [reflexivity|].
  now rewrite IH, andb_assoc.
Qed.

Lemma startswith_drop (p s : string) :
  startswith p s = true -> s = (p ++ drop (String.length p) s)%string.
Proof.
  revert s. induction p as [|a p IH]; intros s H; [reflexivity|].
  destruct s as [|b s]; [discriminate|].
  cbn in H. apply andb_true_iff in H. destruct H as [Hab Hp].
  apply Ascii.eqb_eq in Hab. subst b. cbn. f_equal. now apply IH.
Qed.

Lemma startswith_app (p a b : string) :
  String.length p <= String.length a ->
  startswith p (a ++ b) = startswith p a.
Proof.
  revert a. induction p as [|x p IH]; intros a H; [reflexivity|].
  destruct a as [|y a]; [cbn in H; lia|].
  cbn in *. rewrite IH by lia. reflexivity.
Qed.

(** [span_upto] on a run that ends where it should. *)
Lemma span_upto_run (p : ascii -> bool) (n : nat) (a rest : string) :
  all_str p a = true ->
  String.length a <= n ->
  String.length a = n \/ stops p rest = true ->
  span_upto p n (a ++ rest) = (a, rest).
Proof.
  revert a. induction n as [|n IH]; intros a Hall Hlen Hend.
  - destruct a; [|cbn in Hlen; lia]. cbn. now destruct rest.
  - destruct a as [|c a].
    + cbn [append]. destruct Hend as [Hend | Hend]; [discriminate|].
      destruct rest as [|c rest]; [reflexivity|].
      cbn in *. apply negb_true_iff in Hend. now rewrite Hend.
    + cbn in Hall, Hlen. apply andb_true_iff in Hall.
      destruct Hall as [Hc Hall]. cbn [append span_upto]. rewrite Hc.
      rewrite IH; [reflexivity | exact Hall | lia |].
      destruct Hend as [Hend | Hend]; [left; cbn in Hend; lia | now right].
Qed.

Lemma line_of_spec (s : string) :
  exists rest, s = (line_of s ++ rest)%string
               /\ all_str not_line_feed (line_of s) = true.
Proof.
  induction s as [|c s (rest & Hs & Hall)]; [now exists EmptyString|].
  cbn [line_of]. destruct (Ascii.eqb c (ascii_of_nat 10)) eqn:E.
  - now exists (String c s).
  - exists rest. cbn. unfold not_line_feed at 1. rewrite E, Hall.
    split; [now f_equal | reflexivity].
Qed.

Lemma line_of_app (a b : string) :
  all_str not_line_feed a = true ->
  line_of (a ++ b) = (a ++ line_of b)%string.
Proof.
  induction a as [|c a IH]; intros H; [reflexivity|].
  cbn in H. apply andb_true_iff in H. destruct H as [Hc Ha].
  cbn [append line_of]. unfold not_line_feed in Hc.
  apply negb_true_iff in Hc. rewrite Hc. now rewrite IH.
Qed.

Lemma before_last_spec (pat s pre : string) :
  before_last pat s = Some pre ->
  exists post, s = (pre ++ pat ++ post)%string.
Proof.
  revert pre. induction s as [|c s IH]; intros pre H.
  - cbn in H. destruct (startswith pat EmptyString) eqn:E; [|discriminate].
    injection H as <-. apply startswith_spec in E. exact E.
  - cbn [before_last] in H. destruct (before_last pat s) as [pre'|].
    + injection H as <-. destruct (IH pre' eq_refl) as [post ->].
      now exists post.
    + destruct (startswith pat (String c s)) eqn:E; [|discriminate].
      injection H as <-. apply startswith_spec in E. exact E.
Qed.

Lemma before_last_none (pat s : string) :
  str_in pat s = false -> before_last pat s = None.
Proof.
  induction s as [|c s IH]; cbn [str_in before_last]; intros H;
    apply orb_false_iff in H; destruct H as [H1 H2].
  - now rewrite H1.
  - now rewrite (IH H2), H1.
Qed.

Lemma before_last_app (pat a s g : string) :
  before_last pat s = Some g ->
  before_last pat (a ++ s) = Some (a ++ g)%string.
Proof.
  intros H. induction a as [|c a IH]; [exact H|].
  cbn [append before_last]. now rewrite IH.
Qed.

Lemma digit_not_alpha (c : ascii) :
  is_digit_c c = true -> is_alpha_c c = false.
Proof.
  destruct c as [[] [] [] [] [] [] [] []]; cbn; intros H;
    (reflexivity || discriminate H).
Qed.

Lemma stops_alpha_at_digits (digits rest : string) :
  all_str is_digit_c digits = true -> 1 <= String.length digits ->
  stops is_alpha_c (digits ++ rest) = true.
Proof.
  destruct digits as [|d digits]; [cbn; lia|]. intros H _.
  cbn in H. apply andb_true_iff in H. destruct H as [Hd _].
  cbn [append stops]. now rewrite (digit_not_alpha d Hd).
Qed.

(** What [MODULE_RE] matches: the opening tag, a code, a blank, the
    group, which holds no line feed, and the closing text. *)
Lemma MODULE_RE_sound (s group : string) (len : nat) :
  MODULE_RE s = Some (group, len) ->
  exists letters digits rest : string,
    s = (TITLE_OPEN ++ letters ++ digits ++ " " ++ group ++ TITLE_CLOSE
         ++ rest)%string
    /\ code_shaped (letters ++ digits)
    /\ all_str not_line_feed group = true.
Proof.
  unfold MODULE_RE. destruct (startswith TITLE_OPEN s) eqn:Hopen;
    [|discriminate].
  apply startswith_drop in Hopen.
  destruct (span_upto is_alpha_c 3 _) as [letters s2] eqn:E1.
  destruct (span_upto is_digit_c 3 s2) as [digits s3] eqn:E2.
  destruct (span_upto_spec _ _ _ _ _ E1) as (Hs1 & Hl & Hln).
  destruct (span_upto_spec _ _ _ _ _ E2) as (Hs2 & Hd & Hdn).
  destruct letters as [|l letters]; [discriminate|].
  destruct digits as [|d digits]; [discriminate|].
  destruct s3 as [|sp s4]; [discriminate|].
  destruct (Ascii.eqb_spec sp " ") as [->|]; [|discriminate].
  destruct (before_last TITLE_CLOSE (line_of s4)) as [g|] eqn:Hg;
    [|discriminate].
  intros [= <- _].
  destruct (before_last_spec _ _ _ Hg) as [post Hline].
  destruct (line_of_spec s4) as (rest & Hs4 & Hall).
  exists (String l letters), (String d digits), (post ++ rest)%string.
  split; [|split].
  - rewrite Hopen, Hs1, Hs2, Hs4, Hline. f_equal.
    rewrite !str_app_assoc. reflexivity.
  - exists (String l letters), (String d digits).
    cbn [String.length] in *. repeat split; auto; lia.
  - rewrite Hline, all_str_app in Hall. now apply andb_true_iff in Hall.
Qed.

(** The closing text cannot overlap itself: after its first character
    it occurs only where it occurs in what follows. *)
Lemma before_last_at_close (r : string) :
  str_in TITLE_CLOSE r = false ->
  before_last TITLE_CLOSE (TITLE_CLOSE ++ r) = Some EmptyString.
Proof.
  intros H.
  assert (Htail : str_in TITLE_CLOSE (drop 1 TITLE_CLOSE ++ r) = false)
    by (vm_compute; vm_compute in H; exact H).
  change (TITLE_CLOSE ++ r)%string
    with (String " " (drop 1 TITLE_CLOSE ++ r)).
  cbn [before_last]. rewrite (before_last_none _ _ Htail).
  change (String " " (drop 1 TITLE_CLOSE ++ r))
    with (TITLE_CLOSE ++ r)%string.
  assert (startswith TITLE_CLOSE (TITLE_CLOSE ++ r) = true) as ->
      by (apply startswith_spec; now exists r).
  reflexivity.
Qed.

(** The converse, for a title line of the archive: the group is the
    text between the blank after the code and the closing text, when that
    text holds no line feed and the closing text does not come again on
    the line. *)
Lemma MODULE_RE_complete (letters digits title rest : string) :
  all_str is_alpha_c letters = true -> 1 <= String.length letters <= 3 ->
  all_str is_digit_c digits = true -> 1 <= String.length digits <= 3 ->
  all_str not_line_feed title = true ->
  str_in TITLE_CLOSE (line_of rest) = false ->
  exists len,
    MODULE_RE (TITLE_OPEN ++ letters ++ digits ++ " " ++ title
               ++ TITLE_CLOSE ++ rest)%string = Some (title, len).
Proof.
  intros Hl Hln Hd Hdn Htitle Hrest. unfold MODULE_RE.
  assert (startswith TITLE_OPEN
            (TITLE_OPEN ++ letters ++ digits ++ " " ++ title
             ++ TITLE_CLOSE ++ rest)%string = true) as ->
      by (apply startswith_spec; eexists; reflexivity).
  change (drop (String.length TITLE_OPEN)
            (TITLE_OPEN ++ letters ++ digits ++ " " ++ title
             ++ TITLE_CLOSE ++ rest)%string)
    with (letters ++ digits ++ " " ++ title ++ TITLE_CLOSE ++ rest)%string.
  rewrite (span_upto_run is_alpha_c 3 letters);
    [| assumption | lia
     | right; apply stops_alpha_at_digits; [assumption | lia]].
  rewrite (span_upto_run is_digit_c 3 digits);
    [| assumption | lia | right; reflexivity].
  destruct letters as [|l letters]; [cbn in Hln; lia|].
  destruct digits as [|d digits]; [cbn in Hdn; lia|].
  cbn [append]. cbn [Ascii.eqb Bool.eqb].
  rewrite (line_of_app title) by assumption.
  rewrite (line_of_app TITLE_CLOSE) by reflexivity.
  rewrite (before_last_app TITLE_CLOSE title _ EmptyString)
    by (now apply before_last_at_close).
  assert ((title ++ "")%string = title) as ->
      by (clear; induction title as [|c t IH]; cbn; [reflexivity | now rewrite IH]).
  eexists. reflexivity.
Qed.

(** Whatever [findall] reports was matched at some place of the text. *)
Lemma findall_aux_occurs (m : matcher) (w : string) :
  forall (s : string) (skip : nat),
    In w (findall_aux m s skip) ->
    exists (pre suffix : string) (len : nat),
      s = (pre ++ suffix)%string /\ m suffix = Some (w, len).
Proof.
  induction s as [|c s IH]; intros skip H; [contradiction|].
  assert (Hrest : forall k, In w (findall_aux m s k) ->
                            exists pre suffix len,
                              String c s = (pre ++ suffix)%string
                              /\ m suffix = Some (w, len)).
  { intros k Hk. destruct (IH k Hk) as (pre & suffix & len & -> & Hm).
    now exists (String c pre), suffix, len. }
  cbn [findall_aux] in H. destruct skip as [|k]; [|now apply Hrest in H].
  destruct (m (String c s)) as [[w' len]|] eqn:E; [|now apply Hrest in H].
  destruct H as [<- | H]; [|now apply Hrest in H].
  now exists EmptyString, (String c s), len.
Qed.

(** A stretch of text where the pattern matches nowhere is passed
    over. *)
Lemma findall_aux_passes (m : matcher) (s : string) :
  forall pre : string,
    (forall a b, pre = (a ++ b)%string -> b <> EmptyString ->
                 m (b ++ s)%string = None) ->
    findall_aux m (pre ++ s) 0 = findall_aux m s 0.
Proof.
  induction pre as [|c pre IH]; intros H; [reflexivity|].
  cbn [append findall_aux].
  change (String c (pre ++ s)) with (String c pre ++ s)%string.
  rewrite (H EmptyString (String c pre) eq_refl) by discriminate.
  apply IH. intros a b -> Hb. now apply (H (String c a) b).
Qed.

(** After a match the search goes on behind it. *)
Lemma findall_aux_skips (m : matcher) (a rest : string) :
  findall_aux m (a ++ rest) (String.length a) = findall_aux m rest 0.
Proof.
  induction a as [|c a IH]; [now destruct rest|].
  cbn [append String.length findall_aux]. exact IH.
Qed.

(** The opening tag starts nowhere inside [pre], not even across its
    end when the tag follows. *)
Fixpoint opens_nowhere (pre : string) : bool :=
  match pre with
  | EmptyString => true
  | String _ pre' =>
      negb (startswith TITLE_OPEN (pre ++ TITLE_OPEN)) && opens_nowhere pre'
  end.

Lemma opens_nowhere_spec (pre : string) :
  opens_nowhere pre = true ->
  forall a b, pre = (a ++ b)%string -> b <> EmptyString ->
              startswith TITLE_OPEN (b ++ TITLE_OPEN) = false.
Proof.
  induction pre as [|c pre IH]; intros H a b Hab Hb.
  - destruct a, b; try discriminate. contradiction.
  - cbn [opens_nowhere] in H. apply andb_true_iff in H.
    destruct H as [Hhere Hlater]. apply negb_true_iff in Hhere.
    destruct a as [|x a].
    + cbn in Hab. now subst b.
    + injection Hab as _ Hab. now apply (IH Hlater a b).
Qed.

Lemma MODULE_RE_before_tag (pre rest : string) :
  opens_nowhere pre = true ->
  forall a b, pre = (a ++ b)%string -> b <> EmptyString ->
              MODULE_RE (b ++ TITLE_OPEN ++ rest)%string = None.
Proof.
  intros H a b Hab Hb. unfold MODULE_RE.
  rewrite <- str_app_assoc, startswith_app.
  - now rewrite (opens_nowhere_spec pre H a b Hab Hb).
  - rewrite str_length_app. lia.
Qed.

(** X7. What [MODULE_RE] reports on a text stands in that text: the
    text holds an opening tag, one to three letters and one to three
    digits, a blank, the title reported and the closing text of the
    archive, and the title holds no line feed.  The pattern knows of no
    code: the letters and digits are any.  This is the pattern applied to
    a [str]; [get_module_title] hands it [bytes], which it refuses. *)
Theorem title_read_in_page (text title : string) :
  In title (findall MODULE_RE text) ->
  exists before letters digits after : string,
    text = (before ++ TITLE_OPEN ++ letters ++ digits ++ " " ++ title
            ++ TITLE_CLOSE ++ after)%string
    /\ code_shaped (letters ++ digits)
    /\ all_str not_line_feed title = true.
Proof.
  intros Hin.
  destruct (findall_aux_occurs _ _ _ _ Hin) as (before & suffix & len & -> & Hm).
  destruct (MODULE_RE_sound _ _ _ Hm)
    as (letters & digits & after & -> & Hshape & Hline).
  now exists before, letters, digits, after.
Qed.

Lemma title_read_in_page_witness :
  exists before letters digits after : string,
    Demo.archive_page "A123" "Mocked active module"
    = (before ++ TITLE_OPEN ++ letters ++ digits ++ " "
       ++ "Mocked active module" ++ TITLE_CLOSE ++ after)%string
    /\ code_shaped (letters ++ digits)
    /\ all_str not_line_feed "Mocked active module" = true.
Proof.
  apply (title_read_in_page (Demo.archive_page "A123" "Mocked active module")
           "Mocked active module").
  now left.
Defined.

(** X8. The converse, for a text made as the archive makes its pages:
    when the opening tag starts nowhere before the title line, the code
    is one to three letters and one to three digits, the title holds no
    line feed and the closing text does not come again on the line, then
    the first thing that [MODULE_RE] reports on the text is exactly the
    title.  Again this is the pattern applied to a [str]. *)
Theorem title_of_archive_page
    (before letters digits title after : string) :
  opens_nowhere before = true ->
  all_str is_alpha_c letters = true -> 1 <= String.length letters <= 3 ->
  all_str is_digit_c digits = true -> 1 <= String.length digits <= 3 ->
  all_str not_line_feed title = true ->
  str_in TITLE_CLOSE (line_of after) = false ->
  hd_error
    (findall MODULE_RE
       (before ++ TITLE_OPEN ++ letters ++ digits ++ " " ++ title
        ++ TITLE_CLOSE ++ after)%string)
  = Some title.
Proof.
  intros Hbefore Hl Hln Hd Hdn Htitle Hafter. unfold findall.
  rewrite findall_aux_passes by (now apply MODULE_RE_before_tag).
  destruct (MODULE_RE_complete letters digits title after
              Hl Hln Hd Hdn Htitle Hafter) as [len Hm].
  change (TITLE_OPEN ++ letters ++ digits ++ " " ++ title ++ TITLE_CLOSE
          ++ after)%string
    with (String "<" ("title>" ++ letters ++ digits ++ " " ++ title
                      ++ TITLE_CLOSE ++ after)) in *.
  cbn [findall_aux]. rewrite Hm. reflexivity.
Qed.

Lemma title_of_archive_page_witness :
  hd_error (findall MODULE_RE
              (Demo.archive_page "A123" "Mocked active module"))
  = Some "Mocked active module".
Proof.
  apply (title_of_archive_page "<html><head>" "A" "123"
           "Mocked active module" "</head></html>");
    try reflexivity; cbn; lia.
Defined.

(** X9. Every mention that [EMBED_RE] finds stands in the text: it is a
    mark followed by one to three letters and one to three digits. *)
Theorem mentions_stand_in_text (text w : string) :
  In w (findall EMBED_RE text) ->
  exists before code after : string,
    text = (before ++ "!" ++ code ++ after)%string
    /\ w = String "!" code
    /\ code_shaped code.
Proof.
  intros Hin.
  destruct (findall_aux_occurs _ _ _ _ Hin) as (before & suffix & len & -> & Hm).
  destruct (EMBED_RE_shape _ _ _ Hm) as (Hstarts & _ & code & -> & Hshape).
  apply startswith_spec in Hstarts. destruct Hstarts as [after ->].
  now exists before, code, after.
Qed.

Lemma mentions_stand_in_text_witness :
  exists before code after : string,
    "foo !A123 bar" = (before ++ "!" ++ code ++ after)%string
    /\ "!A123" = String "!" code
    /\ code_shaped code.
Proof.
  apply (mentions_stand_in_text "foo !A123 bar" "!A123"). now left.
Defined.

(** X10. A mention is found where it stands: after a text without
    marks, a mark, one to three letters and one to three digits, not
    followed by a further digit unless the digits are three, is the first
    match, and the search goes on behind it. *)
Theorem mention_is_found (before letters digits after : string) :
  all_str not_mark before = true ->
  all_str is_alpha_c letters = true -> 1 <= String.length letters <= 3 ->
  all_str is_digit_c digits = true -> 1 <= String.length digits <= 3 ->
  String.length digits = 3 \/ stops is_digit_c after = true ->
  findall EMBED_RE (before ++ "!" ++ letters ++ digits ++ after)
  = String "!" (letters ++ digits) :: findall EMBED_RE after.
Proof.
  intros Hbefore Hl Hln Hd Hdn Hend. unfold findall.
  rewrite findall_aux_passes.
  - cbn [append findall_aux]. unfold EMBED_RE at 1. cbn [Ascii.eqb Bool.eqb].
    rewrite (span_upto_run is_alpha_c 3 letters);
      [| assumption | lia
       | right; apply stops_alpha_at_digits; [assumption | lia]].
    rewrite (span_upto_run is_digit_c 3 digits);
      [| assumption | lia | exact Hend].
    destruct letters as [|l letters]; [cbn in Hln; lia|].
    destruct digits as [|d digits]; [cbn in Hdn; lia|].
    f_equal. cbn [String.length Nat.sub].
    rewrite Nat.sub_0_r, <- str_app_assoc. apply findall_aux_skips.
  - intros a b -> Hb. rewrite all_str_app in Hbefore.
    apply andb_true_iff in Hbefore. destruct Hbefore as [_ Hb'].
    destruct b as [|c b]; [contradiction|].
    cbn in Hb'. apply andb_true_iff in Hb'. destruct Hb' as [Hc _].
    unfold not_mark in Hc. apply negb_true_iff in Hc.
    cbn [append]. unfold EMBED_RE. now rewrite Hc.
Qed.

Lemma mention_is_found_witness :
  findall EMBED_RE ("see " ++ "!" ++ "A" ++ "123" ++ " and !b31")
  = String "!" ("A" ++ "123") :: findall EMBED_RE " and !b31".
Proof.
  apply (mention_is_found "see " "A" "123" " and !b31");
    try reflexivity; cbn; lia.
Defined.

End Patterns.

(** *** The handlers as a whole *)

Module Handlers.
Import PyStr OUModulesBotPlugin Plugin Demo.

(** [s'] is [s] after the requests for at most five pages followed by at
    most one reply or edit. *)
Definition one_round (s s' : state) : Prop :=
  exists (pages : list string) (tail : trace),
    effects s' = effects s ++ map EvRequest pages ++ tail
    /\ List.length pages <= 5
    /\ (tail = [] \/ exists e, tail = [e] /\ posts [e] = [e]).

Lemma one_round_refl (s : state) : one_round s s.
Proof.
  exists [], []. cbn. rewrite app_nil_r. repeat split; auto with arith.
Qed.

Section Facts.
Variable str_upper : string -> string.
Variable str_isalnum : string -> bool.
Variable requests_get : trace -> string -> result bytes.
Variable message_reply :
  trace -> Message -> string -> option MessageEmbed -> Message.

(** What [post_modules] adds to the effects: nothing when it raises, one
    reply or one edit otherwise. *)
Lemma post_effects (event_ : Event) (reply_to : Message)
    (modules : list (string * string)) (s : state) :
  exists tail : trace,
    effects (snd (post_modules message_reply event_ reply_to modules s))
    = effects s ++ tail
    /\ (tail = [] \/ exists e, tail = [e] /\ posts [e] = [e]).
Proof.
  rewrite post_unfold. cbv zeta. unfold after_lookup.
  destruct modules as [|m rest];
    destruct (Pylru.lookup _ _) as [[modify_c modify_m]|];
    cbn [snd effects record_effect].
  - exists []. rewrite app_nil_r. auto.
  - exists []. rewrite app_nil_r. auto.
  - eexists. split; [reflexivity|]. right. eexists. split; reflexivity.
  - eexists. split; [reflexivity|]. right. eexists. split; reflexivity.
Qed.

Lemma one_round_post (event_ : Event) (reply_to : Message)
    (modules : list (string * string)) (s : state) (keys : list string) :
  List.length keys <= 5 ->
  one_round s
    (snd (post_modules message_reply event_ reply_to modules
            (looked_up s keys))).
Proof.
  intros Hlen.
  destruct (post_effects event_ reply_to modules (looked_up s keys))
    as [tail [Heff Htail]].
  exists (map archive_url keys), tail. rewrite Heff. cbn [looked_up effects].
  rewrite map_map, length_map, <- app_assoc. auto.
Qed.

Lemma one_round_looked_up (s : state) (keys : list string) :
  List.length keys <= 5 -> one_round s (looked_up s keys).
Proof.
  intros Hlen. exists (map archive_url keys), [].
  cbn [looked_up effects]. rewrite map_map, length_map, app_nil_r. auto.
Qed.

Lemma one_round_command (event_ : Event) (message_ : Message) (s : state) :
  one_round s
    (snd (command_modulename str_upper str_isalnum requests_get
            message_reply event_ message_ s)).
Proof.
  rewrite command_unfold. cbv zeta.
  pose proof (length_asked requests_get
                (command_candidates str_upper str_isalnum (content message_))
                (effects s)) as Hasked.
  pose proof (length_command_candidates str_upper str_isalnum
                (content message_)) as Hlen.
  destruct (snd (asked _ _ _)); [apply one_round_looked_up; lia|].
  destruct (_ =? 1)%nat;
    [apply one_round_post; lia | apply one_round_looked_up; lia].
Qed.

Lemma one_round_embeds (event_ : Event) (s : state) :
  one_round s
    (snd (do_embeds str_upper str_isalnum requests_get message_reply
            event_ s)).
Proof.
  pose proof (embeds_unfold str_upper str_isalnum requests_get
                message_reply event_ s) as Hu.
  cbv zeta in Hu. unfold do_embeds in *.
  destruct (truthy (content _)); [|apply one_round_refl]. cbn [negb] in *.
  destruct (startswith _ _); [apply one_round_command|].
  rewrite (Hu eq_refl eq_refl). cbn [snd].
  pose proof (length_asked requests_get
                (inline_candidates (content (message event_)))
                (effects s)) as Hasked.
  pose proof (length_inline_candidates (content (message event_))) as Hlen.
  apply one_round_looked_up. lia.
Qed.

Lemma posts_embeds (event_ : Event) (s : state) :
  posts (effects (snd (do_embeds str_upper str_isalnum requests_get
                         message_reply event_ s)))
  = posts (effects s).
Proof.
  pose proof (embeds_unfold str_upper str_isalnum requests_get
                message_reply event_ s) as Hu.
  cbv zeta in Hu. unfold do_embeds in *.
  destruct (truthy (content _)); [|reflexivity]. cbn [negb] in *.
  destruct (startswith _ _); [apply posts_command|].
  rewrite (Hu eq_refl eq_refl). cbn [snd]. apply posts_looked_up.
Qed.

End Facts.

(** X11. One event, one message at most.  Whatever the archive and the
    chat service do, a handler first asks for at most five pages and
    then sends at most one reply or edit; it does nothing else. *)
Theorem one_event_one_post
    (str_upper : string -> string) (str_isalnum : string -> bool)
    (requests_get : trace -> string -> result bytes)
    (message_reply :
       trace -> Message -> string -> option MessageEmbed -> Message)
    (event_ : Event) (s : state) :
  one_round s (snd (on_message_create str_upper str_isalnum requests_get
                      message_reply event_ s))
  /\ one_round s (snd (on_message_update str_upper str_isalnum requests_get
                         message_reply event_ s)).
Proof.
  split; [apply one_round_embeds|].
  unfold on_message_update.
  destruct (truthy (content _)); [|apply one_round_refl]. cbn [negb].
  destruct (startswith _ _); [apply one_round_command | apply one_round_embeds].
Qed.

(** X12. An edited message is handled as a new one: for a gateway
    event, which has no [msg] attribute, the two handlers run the same
    lookups, send the same and leave the same state. *)
Theorem update_handled_as_create
    (str_upper : string -> string) (str_isalnum : string -> bool)
    (requests_get : trace -> string -> result bytes)
    (message_reply :
       trace -> Message -> string -> option MessageEmbed -> Message)
    (event_ : Event) (s : state) :
  msg event_ = None ->
  on_message_update str_upper str_isalnum requests_get message_reply
    event_ s
  = on_message_create str_upper str_isalnum requests_get message_reply
      event_ s.
Proof.
  intros Hmsg. unfold on_message_update, on_message_create, do_embeds.
  rewrite Hmsg.
  destruct (truthy (content (message event_))); [|reflexivity].
  cbn [negb]. now destruct (startswith _ _).
Qed.

Lemma update_handled_as_create_witness :
  on_message_update ascii_upper ascii_isalnum archive chat
    (incoming 7 "foo !A123") initial_state
  = on_message_create ascii_upper ascii_isalnum archive chat
      (incoming 7 "foo !A123") initial_state.
Proof.
  apply (update_handled_as_create ascii_upper ascii_isalnum archive chat
           (incoming 7 "foo !A123") initial_state).
  reflexivity.
Defined.

(** X13. No title, no message.  [get_module_title] never hands a title
    back, so whatever the archive and the chat service do, no handler
    sends a reply or an edit.  When the archive cannot be reached, a
    message with inline mentions is looked up, mention by mention, and
    then left alone, the handler ending normally and the cache being as it
    was; when a page is answered, the handler ends there with a
    [TypeError]. *)
Theorem nothing_found_nothing_posted
    (str_upper : string -> string) (str_isalnum : string -> bool)
    (requests_get : trace -> string -> result bytes)
    (message_reply :
       trace -> Message -> string -> option MessageEmbed -> Message)
    (event_ : Event) (s : state) :
  posts (effects (snd (on_message_create str_upper str_isalnum requests_get
                         message_reply event_ s))) = posts (effects s)
  /\ posts (effects (snd (on_message_update str_upper str_isalnum
                            requests_get message_reply event_ s)))
     = posts (effects s)
  /\ (let message_ :=
        match msg event_ with Some m => m | None => message event_ end in
      let keys := inline_candidates (content (message event_)) in
      let run := on_message_create str_upper str_isalnum requests_get
                   message_reply event_ s in
      truthy (content message_) = true ->
      startswith ("!" ++ COMMAND_NAME) (content message_) = false ->
      (unreachable requests_get ->
       run = (Ret tt, looked_up s keys)
       /\ embeds_cache (looked_up s keys) = embeds_cache s)
      /\ (forall (k : string) (rest : list string) (html : bytes),
            keys = k :: rest ->
            requests_get (effects s) (archive_url k) = Ret html ->
            run = (Raise TypeError, looked_up s [k]))).
Proof.
  split; [apply posts_embeds | split].
  - unfold on_message_update.
    destruct (truthy (content _)); [|reflexivity]. cbn [negb].
    destruct (startswith _ _); [apply posts_command | apply posts_embeds].
  - intros message_ keys run Htruthy Hcmd. subst run.
    unfold on_message_create.
    rewrite (embeds_unfold str_upper str_isalnum requests_get message_reply
               event_ s Htruthy Hcmd).
    cbv zeta. fold keys. split.
    + intros Hdown. rewrite (asked_unreachable requests_get keys Hdown).
      split; reflexivity.
    + intros k rest html -> Hpage. cbn [asked]. now rewrite Hpage.
Qed.

Lemma nothing_found_nothing_posted_witness :
  on_message_create ascii_upper ascii_isalnum unreachable_archive chat
    (incoming 7 "is !XY999 real?") initial_state
  = (Ret tt, looked_up initial_state (inline_candidates "is !XY999 real?")).
Proof.
  refine (proj1 (proj1 (proj2 (proj2 (nothing_found_nothing_posted
                     ascii_upper ascii_isalnum unreachable_archive chat
                     (incoming 7 "is !XY999 real?") initial_state))
                   eq_refl eq_refl) _)).
  intros t target. now exists ConnectError.
Defined.

(** X14. Nothing to do.  An event whose message has no content is
    dropped by both handlers, and a command that names no code, the bare
    command or the command followed by blanks, is dropped too: nothing
    is looked up, nothing is sent, the state is as it was. *)
Theorem empty_input_is_dropped
    (str_upper : string -> string) (str_isalnum : string -> bool)
    (requests_get : trace -> string -> result bytes)
    (message_reply :
       trace -> Message -> string -> option MessageEmbed -> Message)
    (event_ : Event) (s : state) :
  (content (message event_) = EmptyString ->
   on_message_update str_upper str_isalnum requests_get message_reply
     event_ s = (Ret tt, s)
   /\ (msg event_ = None ->
       on_message_create str_upper str_isalnum requests_get message_reply
         event_ s = (Ret tt, s)))
  /\ (msg event_ = None ->
      startswith ("!" ++ COMMAND_NAME) (content (message event_)) = true ->
      skipn 1 (split (content (message event_))) = [] ->
      on_message_update str_upper str_isalnum requests_get message_reply
        event_ s = (Ret tt, s)
      /\ on_message_create str_upper str_isalnum requests_get message_reply
           event_ s = (Ret tt, s)).
Proof.
  split.
  - intros Hempty. unfold on_message_update, on_message_create, do_embeds.
    rewrite Hempty. split; [reflexivity|]. intros ->. now rewrite Hempty.
  - intros Hmsg Hcommand Htokens.
    assert (Hrun : command_modulename str_upper str_isalnum requests_get
                     message_reply event_ (message event_) s = (Ret tt, s)).
    { unfold command_modulename. rewrite Htokens. reflexivity. }
    assert (Htruthy : truthy (content (message event_)) = true).
    { destruct (content (message event_)); [discriminate | reflexivity]. }
    unfold on_message_update, on_message_create, do_embeds.
    rewrite Hmsg, Htruthy, Hcommand. cbn [negb]. now split.
Qed.

Lemma empty_input_is_dropped_witness :
  on_message_update ascii_upper ascii_isalnum archive chat (incoming 7 "")
    initial_state
  = (Ret tt, initial_state)
  /\ on_message_create ascii_upper ascii_isalnum archive chat
       (incoming 8 ("!modulename  " ++ nbsp)) initial_state
     = (Ret tt, initial_state).
Proof.
  split.
  - exact (proj1 (proj1 (empty_input_is_dropped ascii_upper ascii_isalnum
                           archive chat (incoming 7 "") initial_state)
                    eq_refl)).
  - exact (proj2 (proj2 (empty_input_is_dropped ascii_upper ascii_isalnum
                           archive chat
                           (incoming 8 ("!modulename  " ++ nbsp))
                           initial_state)
                    eq_refl eq_refl eq_refl)).
Defined.

End Handlers.

(** *** How long a reply stays on record *)

Module Retention.
Import PyStr OUModulesBotPlugin Plugin Demo Reconciler.

Section Position.
Context {V : Type}.

(** The rank of a key in the table: 0 for the entry touched last. *)
Fixpoint position (k : Z) (t : list (Z * V)) : option nat :=
  match t with
  | [] => None
  | (k', _) :: t' =>
      if (k =? k')%Z then Some 0 else option_map S (position k t')
  end.

(** The entry of [k] holds [v] and is among the [i + 1] entries touched
    last. *)
Definition kept (k : Z) (v : V) (i : nat) (t : list (Z * V)) : Prop :=
  Pylru.lookup k t = Some v
  /\ exists j, position k t = Some j /\ j <= i.

Lemma kept_weaken (k : Z) (v : V) (i i' : nat) (t : list (Z * V)) :
  i <= i' -> kept k v i t -> kept k v i' t.
Proof. intros Hi [Hl (j & Hp & Hj)]. split; [exact Hl|]. exists j. split; [exact Hp | lia]. Qed.

Lemma kept_cons_other (k k' : Z) (v v' : V) (i : nat) (t : list (Z * V)) :
  k <> k' -> kept k v i t -> kept k v (S i) ((k', v') :: t).
Proof.
  intros Hk [Hl (j & Hp & Hj)]. unfold kept. cbn.
  destruct (Z.eqb_spec k k'); [contradiction|].
  split; [exact Hl|]. exists (S j). rewrite Hp. split; [reflexivity | lia].
Qed.

Lemma kept_remove_other (k k' : Z) (v : V) (i : nat) (t : list (Z * V)) :
  k <> k' -> kept k v i t -> kept k v i (Pylru.remove k' t).
Proof.
  intros Hk [Hl (j & Hp & Hj)]. split.
  - now rewrite lookup_remove_other.
  - clear Hl. revert j i Hp Hj. induction t as [|[k0 v0] t IH];
      intros j i Hp Hj; [discriminate|].
    cbn in Hp |- *. destruct (Z.eqb_spec k k0) as [->|Hk0].
    + injection Hp as <-.
      destruct (Z.eqb_spec k' k0); [congruence|].
      cbn. rewrite Z.eqb_refl. exists 0. split; [reflexivity | lia].
    + destruct (position k t) as [j0|] eqn:E; [|discriminate].
      injection Hp as <-.
      destruct (IH j0 j0 eq_refl (le_n _)) as (j' & Hp' & Hj').
      destruct (Z.eqb_spec k' k0).
      * exists j'. split; [exact Hp' | lia].
      * cbn. destruct (Z.eqb_spec k k0); [contradiction|].
        rewrite Hp'. exists (S j'). split; [reflexivity | lia].
Qed.

Lemma kept_removelast (k : Z) (v : V) (i : nat) (t : list (Z * V)) :
  kept k v i t -> S i < List.length t -> kept k v i (removelast t).
Proof.
  intros [Hl (j & Hp & Hj)] Hlen.
  assert (Hj' : S j < List.length t) by lia. clear Hlen.
  assert (H : Pylru.lookup k (removelast t) = Some v
              /\ position k (removelast t) = Some j).
  { clear Hj. revert j Hp Hj' Hl. induction t as [|[k0 v0] t IH];
      intros j Hp Hlen Hl; [discriminate|].
    destruct t as [|x t]; [cbn in Hlen; lia|].
    change (removelast ((k0, v0) :: x :: t))
      with ((k0, v0) :: removelast (x :: t)).
    remember (x :: t) as t' eqn:Et'.
    cbn [Pylru.lookup position List.length] in *.
    destruct (k =? k0)%Z; [now split|].
    destruct (position k t') as [j0|] eqn:E; [|discriminate].
    cbn [option_map] in Hp. injection Hp as <-.
    destruct (IH j0 eq_refl) as [Hl' Hp']; [lia | exact Hl |].
    rewrite Hp'. now split. }
  destruct H as [Hl' Hp']. split; [exact Hl'|]. now exists j.
Qed.

Lemma kept_head (k : Z) (v : V) (t : list (Z * V)) :
  kept k v 0 ((k, v) :: t).
Proof.
  unfold kept. cbn. rewrite Z.eqb_refl. split; [reflexivity|].
  now exists 0.
Qed.

(** Writing another key ages the entry by one rank at most, and keeps it
    while its rank is under the size. *)
Lemma setitem_keeps (k k' : Z) (v v' : V) (i : nat) (c : Pylru.lrucache V) :
  k <> k' ->
  List.length (Pylru.table c) <= Pylru.size c ->
  S i < Pylru.size c ->
  kept k v i (Pylru.table c) ->
  kept k v (S i) (Pylru.table (Pylru.setitem k' v' c)).
Proof.
  intros Hk Hlen Hi Hkept. unfold Pylru.setitem.
  destruct (Pylru.contains k' c).
  - cbn. now apply kept_cons_other, kept_remove_other.
  - destruct (Nat.ltb_spec (List.length (Pylru.table c)) (Pylru.size c)).
    + cbn. now apply kept_cons_other.
    + cbn. apply kept_cons_other; [exact Hk|].
      apply kept_removelast; [exact Hkept | lia].
Qed.

End Position.

Section Facts.
Variable str_upper : string -> string.
Variable str_isalnum : string -> bool.
Variable requests_get : trace -> string -> result bytes.
Variable message_reply :
  trace -> Message -> string -> option MessageEmbed -> Message.

Definition on_record (k : Z) (v : Channel * Message) (i : nat) (s : state)
    : Prop :=
  kept k v i (Pylru.table (embeds_cache s)).

(** The event is about another message than [k]. *)
Definition about_other (k : Z) (event_ : Event) : Prop :=
  id (message event_) <> k
  /\ forall m, msg event_ = Some m -> id m <> k.

Lemma after_lookup_keeps (k k' : Z) (v : Channel * Message) (i : nat)
    (s : state) :
  k <> k' -> on_record k v i s -> on_record k v (S i) (after_lookup k' s).
Proof.
  intros Hk H. unfold after_lookup, on_record.
  destruct (Pylru.lookup k' _) as [v'|].
  - cbn. now apply kept_cons_other, kept_remove_other.
  - now apply (kept_weaken k v i (S i)); [lia|].
Qed.

Lemma post_keeps (k : Z) (v : Channel * Message) (i : nat)
    (event_ : Event) (reply_to : Message)
    (modules : list (string * string)) (s : state) :
  bounded s -> S i < 1000 ->
  id (message event_) <> k -> id reply_to <> k ->
  on_record k v i s ->
  on_record k v (S i)
    (snd (post_modules message_reply event_ reply_to modules s)).
Proof.
  intros [Hsize Hlen] Hi Hev Hrt H. rewrite post_unfold. cbv zeta.
  pose proof (after_lookup_keeps k (id (message event_)) v i s
                (not_eq_sym Hev) H) as Hl.
  destruct modules as [|m rest]; [exact Hl|].
  destruct (Pylru.lookup _ _) as [[modify_c modify_m]|]; [exact Hl|].
  cbn [snd]. unfold on_record. cbn [embeds_cache].
  apply setitem_keeps; [now apply not_eq_sym | lia | lia | exact H].
Qed.

Lemma command_keeps (k : Z) (v : Channel * Message) (i : nat)
    (event_ : Event) (message_ : Message) (s : state) :
  bounded s -> S i < 1000 ->
  id (message event_) <> k -> id message_ <> k ->
  on_record k v i s ->
  on_record k v (S i)
    (snd (command_modulename str_upper str_isalnum requests_get
            message_reply event_ message_ s)).
Proof.
  intros Hb Hi Hev Hm H. rewrite command_unfold. cbv zeta.
  assert (Hsame : forall keys, on_record k v (S i) (looked_up s keys))
    by (intros keys; now apply (kept_weaken k v i (S i)); [lia|]).
  destruct (snd (asked _ _ _)); [apply Hsame|].
  destruct (_ =? 1)%nat; [|apply Hsame].
  now apply post_keeps.
Qed.

Lemma embeds_keeps (k : Z) (v : Channel * Message) (i : nat)
    (event_ : Event) (s : state) :
  bounded s -> S i < 1000 -> about_other k event_ ->
  on_record k v i s ->
  on_record k v (S i)
    (snd (do_embeds str_upper str_isalnum requests_get message_reply
            event_ s)).
Proof.
  intros Hb Hi [Hev Hmsg] H.
  assert (Hm : id (match msg event_ with
                   | Some m => m
                   | None => message event_
                   end) <> k)
    by (destruct (msg event_) as [m|]; [now apply Hmsg | exact Hev]).
  assert (Hsame : on_record k v (S i) s)
    by (now apply (kept_weaken k v i (S i)); [lia|]).
  pose proof (embeds_unfold str_upper str_isalnum requests_get
                message_reply event_ s) as Hu.
  cbv zeta in Hu. unfold do_embeds in *.
  destruct (truthy (content _)); [|exact Hsame]. cbn [negb] in *.
  destruct (startswith _ _); [now apply command_keeps|].
  rewrite (Hu eq_refl eq_refl). exact Hsame.
Qed.

(** An event handled: a new message when [fst] holds, an edit
    otherwise.  An exception ends the handler, not the bot. *)
Definition handle (e : bool * Event) (s : state) : state :=
  snd ((if fst e
        then on_message_create str_upper str_isalnum requests_get
               message_reply
        else on_message_update str_upper str_isalnum requests_get
               message_reply) (snd e) s).

Definition handle_all (events : list (bool * Event)) (s : state) : state :=
  fold_left (fun s e => handle e s) events s.

Lemma handle_keeps (k : Z) (v : Channel * Message) (i : nat)
    (e : bool * Event) (s : state) :
  bounded s -> S i < 1000 -> about_other k (snd e) ->
  on_record k v i s ->
  bounded (handle e s) /\ on_record k v (S i) (handle e s).
Proof.
  intros Hb Hi Hother H. unfold handle.
  destruct (bounded_handlers str_upper str_isalnum requests_get
              message_reply (snd e) s Hb) as [Hupdate Hcreate].
  destruct (fst e); [split; [exact Hcreate | now apply embeds_keeps]|].
  split; [exact Hupdate|]. unfold on_message_update.
  assert (Hsame : on_record k v (S i) s)
    by (now apply (kept_weaken k v i (S i)); [lia|]).
  destruct (truthy (content _)); [|exact Hsame]. cbn [negb].
  destruct (startswith _ _); [|now apply embeds_keeps].
  destruct Hother as [Hev _]. now apply command_keeps.
Qed.

Lemma handle_all_keeps (k : Z) (v : Channel * Message)
    (events : list (bool * Event)) :
  forall (i : nat) (s : state),
    bounded s -> i + List.length events < 1000 ->
    Forall (fun e => about_other k (snd e)) events ->
    on_record k v i s ->
    on_record k v (i + List.length events) (handle_all events s).
Proof.
  induction events as [|e events IH]; intros i s Hb Hi Hall H.
  - cbn. now rewrite Nat.add_0_r.
  - inversion Hall as [|? ? He Hrest]; subst. cbn [List.length] in *.
    destruct (handle_keeps k v i e s Hb ltac:(lia) He H) as [Hb' H'].
    cbn [handle_all fold_left]. fold (handle_all events (handle e s)).
    replace (i + S (List.length events)) with (S i + List.length events)
      by lia.
    apply IH; try assumption. lia.
Qed.

End Facts.

(** X15. A reply stays on record.  After [post_modules] has answered
    or edited for a message, the record of that message is still in the
    cache, unchanged, when up to 999 events about other messages have
    been handled since, whatever those events are and whatever the
    archive answers; so an edit of the message in that span finds its
    reply. *)
Theorem reply_stays_on_record
    (str_upper : string -> string) (str_isalnum : string -> bool)
    (requests_get : trace -> string -> result bytes)
    (message_reply :
       trace -> Message -> string -> option MessageEmbed -> Message)
    (event_ : Event) (reply_to : Message)
    (modules : list (string * string)) (s : state)
    (events : list (bool * Event)) :
  bounded s ->
  modules <> [] ->
  id reply_to = id (message event_) ->
  Forall (fun e => about_other (id (message event_)) (snd e)) events ->
  List.length events < 1000 ->
  let k := id (message event_) in
  let s1 := snd (post_modules message_reply event_ reply_to modules s) in
  exists v : Channel * Message,
    Pylru.lookup k (Pylru.table (embeds_cache s1)) = Some v
    /\ Pylru.lookup k
         (Pylru.table
            (embeds_cache
               (handle_all str_upper str_isalnum requests_get message_reply
                  events s1)))
       = Some v.
Proof.
  intros Hb Hmodules Hid Hall Hlen k s1.
  assert (Hb1 : bounded s1) by now apply bounded_post.
  assert (Hfront : exists v, on_record k v 0 s1).
  { subst s1. rewrite post_unfold. cbv zeta. fold k.
    destruct modules as [|m rest]; [contradiction|].
    unfold after_lookup. fold k.
    destruct (Pylru.lookup k _) as [[modify_c modify_m]|] eqn:E.
    - exists (modify_c, modify_m). cbn [snd record_effect embeds_cache].
      apply kept_head.
    - eexists. cbn [snd]. unfold on_record. cbn [embeds_cache].
      rewrite Hid. fold k. rewrite setitem_evicts by exact E.
      apply kept_head. }
  destruct Hfront as [v Hfront]. exists v. split; [apply Hfront|].
  apply (handle_all_keeps str_upper str_isalnum requests_get message_reply
           k v events 0 s1 Hb1 Hlen Hall Hfront).
Qed.

Lemma reply_stays_on_record_witness :
  exists v : Channel * Message,
    Pylru.lookup 7
      (Pylru.table
         (embeds_cache
            (snd (post_modules chat (incoming 7 "foo !A123")
                    (mkMessage 7 "foo !A123")
                    [("A123", "Mocked active module")] initial_state))))
    = Some v
    /\ Pylru.lookup 7
         (Pylru.table
            (embeds_cache
               (handle_all ascii_upper ascii_isalnum archive chat
                  [(true, incoming 8 "foo !A012");
                   (false, incoming 9 "!modulename ABCD")]
                  (snd (post_modules chat (incoming 7 "foo !A123")
                          (mkMessage 7 "foo !A123")
                          [("A123", "Mocked active module")]
                          initial_state)))))
       = Some v.
Proof.
  apply (reply_stays_on_record ascii_upper ascii_isalnum archive chat
           (incoming 7 "foo !A123")
           (mkMessage 7 "foo !A123") [("A123", "Mocked active module")]
           initial_state
           [(true, incoming 8 "foo !A012");
            (false, incoming 9 "!modulename ABCD")]).
  - split; [reflexivity | cbn; lia].
  - discriminate.
  - reflexivity.
  - repeat constructor; cbn; intros; discriminate.
  - cbn. lia.
Defined.

End Retention.

(* ===================================================================== *)
(** ** oumodulesbot.py: the API client of the plugin and the start *)
(* ===================================================================== *)

Module PluginClient.
Local Open Scope py_scope.

(** [APIClient(token, client)]: the token it was built with. *)
Record APIClient : Type := mkAPIClient { token : string }.

(** The plugin object as [api_client] sees it: the token of
    [self.client.config], the attribute [_api_client] when it is set, and
    the clients built so far. *)
Record self : Type := mkSelf {
  config_token : string;
  _api_client : option APIClient;
  built : list APIClient
}.

(** The property [api_client]. *)
Definition api_client : M (St := self) APIClient :=
  fun self_ =>
    match _api_client self_ with
    | Some client => (Ret client, self_)
    | None =>
        let client := mkAPIClient (config_token self_) in
        (Ret client,
         mkSelf (config_token self_) (Some client) (built self_ ++ [client]))
    end.

(** The token of the configuration is changed from outside. *)
Definition set_token (new_token : string) (self_ : self) : self :=
  mkSelf new_token (_api_client self_) (built self_).

(** [n] readings of the property, each after a change of the token of
    the configuration; the clients read, in order. *)
Fixpoint read_all (tokens : list string) (self_ : self)
    : list (result APIClient) * self :=
  match tokens with
  | [] => ([], self_)
  | tok :: rest =>
      let (r, self1) := api_client (set_token tok self_) in
      let (rs, self2) := read_all rest self1 in
      (r :: rs, self2)
  end.

Lemma read_all_cached (client : APIClient) (tokens : list string) :
  forall self_ : self,
    _api_client self_ = Some client ->
    fst (read_all tokens self_) = map (fun _ => Ret client) tokens
    /\ built (snd (read_all tokens self_)) = built self_
    /\ _api_client (snd (read_all tokens self_)) = Some client.
Proof.
  induction tokens as [|tok tokens IH]; intros self_ H; [now cbn|].
  cbn [read_all]. unfold api_client. cbn [set_token _api_client].
  rewrite H.
  destruct (IH (set_token tok self_) H) as (Hfst & Hbuilt & Hclient).
  unfold set_token in *.
  destruct (read_all tokens _) as [rs self2]. cbn [fst snd map] in *.
  now rewrite Hfst.
Qed.

(** X16. The API client is built once.  The first reading of the
    property builds a client with the token the configuration has then
    and keeps it; every later reading returns that same client and builds
    nothing, even when the token of the configuration has changed in
    between. *)
Theorem api_client_built_once (self_ : self) (tokens : list string) :
  _api_client self_ = None ->
  let first := mkAPIClient (config_token self_) in
  let self1 := snd (api_client self_) in
  fst (api_client self_) = Ret first
  /\ fst (read_all tokens self1) = map (fun _ => Ret first) tokens
  /\ built (snd (read_all tokens self1)) = built self_ ++ [first].
Proof.
  intros Hnone first self1. subst self1 first. unfold api_client.
  rewrite Hnone. cbn [fst snd].
  split; [reflexivity|].
  destruct (read_all_cached (mkAPIClient (config_token self_)) tokens
              (mkSelf (config_token self_)
                 (Some (mkAPIClient (config_token self_)))
                 (built self_ ++ [mkAPIClient (config_token self_)]))
              eq_refl) as (Hfst & Hbuilt & _).
  now split.
Qed.

Lemma api_client_built_once_witness :
  fst (api_client (mkSelf "first-token" None [])) = Ret (mkAPIClient "first-token")
  /\ fst (read_all ["second-token"; "third-token"]
            (snd (api_client (mkSelf "first-token" None []))))
     = [Ret (mkAPIClient "first-token"); Ret (mkAPIClient "first-token")]
  /\ built (snd (read_all ["second-token"; "third-token"]
                   (snd (api_client (mkSelf "first-token" None [])))))
     = [mkAPIClient "first-token"].
Proof.
  apply (api_client_built_once (mkSelf "first-token" None [])
           ["second-token"; "third-token"]).
  reflexivity.
Defined.

End PluginClient.

Module Startup.
Import PyStr Json.

(** What can end [main] before the bot runs: the file of the
    configuration cannot be opened, or reading the token from it raises. *)
Inductive startup_error : Type :=
| FileNotFoundError
| Reading (e : pyexn).

Inductive startup_event : Type :=
| EvGetenv (variable : string)
| EvOpen (path : string).

(** [main], up to the token of the client; what follows builds the bot
    and runs it for ever.  [getenv] is the environment, [config_json]
    what [open] and [json.load] make of [config.json]: nothing when the
    file cannot be opened, else the value read or the exception of the
    parser. *)
Definition main_token (getenv : string -> option string)
    (config_json : option (result json))
    : (startup_error + json) * list startup_event :=
  let token := getenv "OU_BOT_TOKEN" in
  let trace := [EvGetenv "OU_BOT_TOKEN"] in
  match token with
  | Some (String c t) => (inr (JStr (String c t)), trace)
  | _ =>
      let trace := trace ++ [EvOpen "config.json"] in
      match config_json with
      | None => (inl FileNotFoundError, trace)
      | Some (Raise e) => (inl (Reading e), trace)
      | Some (Ret loaded) =>
          match py_getitem loaded (JStr "token") with
          | Ret token => (inr token, trace)
          | Raise e => (inl (Reading e), trace)
          end
      end
  end.

(** X17. Where the token comes from.  A variable [OU_BOT_TOKEN] that is
    set and not empty gives the token, and the file is not opened.  When
    the variable is unset or empty the token is the entry [token] of
    [config.json], taken as it is; the start fails when the file cannot
    be opened, is not JSON or is an object without that entry. *)
Theorem main_token_source (getenv : string -> option string)
    (config_json : option (result json)) :
  (forall tok : string,
      getenv "OU_BOT_TOKEN" = Some tok -> tok <> EmptyString ->
      main_token getenv config_json
      = (inr (JStr tok), [EvGetenv "OU_BOT_TOKEN"]))
  /\ (getenv "OU_BOT_TOKEN" = None
      \/ getenv "OU_BOT_TOKEN" = Some EmptyString ->
      snd (main_token getenv config_json)
      = [EvGetenv "OU_BOT_TOKEN"; EvOpen "config.json"]
      /\ (config_json = None ->
          fst (main_token getenv config_json) = inl FileNotFoundError)
      /\ (forall e, config_json = Some (Raise e) ->
                    fst (main_token getenv config_json) = inl (Reading e))
      /\ (forall fields,
            config_json = Some (Ret (JObj fields)) ->
            fst (main_token getenv config_json)
            = match assoc "token" fields with
              | Some tok => inr tok
              | None => inl (Reading KeyError)
              end)).
Proof.
  split.
  - intros tok Hset Htok. unfold main_token. rewrite Hset.
    destruct tok; [contradiction | reflexivity].
  - intros Hunset. unfold main_token.
    assert (Hfall : match getenv "OU_BOT_TOKEN" with
                    | Some (String _ _) => False
                    | _ => True
                    end)
      by (destruct Hunset as [-> | ->]; exact I).
    destruct (getenv "OU_BOT_TOKEN") as [[|c t]|]; try contradiction;
      (split; [|split; [|split]]);
      try (intros; subst config_json; cbn;
           try destruct (assoc "token" _); reflexivity);
      destruct config_json as [[loaded | e]|]; try reflexivity;
      now destruct (py_getitem loaded (JStr "token")).
Qed.

Lemma main_token_source_witness :
  main_token (fun _ => Some "secret")
    (Some (Ret (JObj [("token", JStr "from-file")])))
  = (inr (JStr "secret"), [EvGetenv "OU_BOT_TOKEN"])
  /\ fst (main_token (fun _ => Some "")
            (Some (Ret (JObj [("token", JStr "from-file")]))))
     = inr (JStr "from-file").
Proof.
  split.
  - apply (proj1 (main_token_source (fun _ => Some "secret")
                    (Some (Ret (JObj [("token", JStr "from-file")])))));
      [reflexivity | discriminate].
  - exact (proj2 (proj2 (proj2 (proj2 (main_token_source (fun _ => Some "")
             (Some (Ret (JObj [("token", JStr "from-file")]))))
             (or_intror eq_refl))))
             [("token", JStr "from-file")] eq_refl).
Defined.

End Startup.

(** *** Reply or edit, by the record *)

Module Replies.
Import PyStr OUModulesBotPlugin Plugin Demo Handlers.

(** What a handler may send for a message whose record is [recorded]:
    nothing, or one edit of the reply on record, or, when there is no
    record, one reply to the message. *)
Definition sends_for (recorded : option (Channel * Message)) (k : Z)
    (before after : trace) : Prop :=
  posts after = posts before
  \/ match recorded with
     | Some (modify_c, modify_m) =>
         exists content_ embed,
           posts after
           = posts before
             ++ [EvModify (channel_id modify_c) (id modify_m) content_ embed]
     | None =>
         exists content_ embed,
           posts after = posts before ++ [EvReply k content_ embed]
     end.

(** X18. Reply or edit, never both and never the wrong one.  For a
    gateway event, when the cache holds a reply for the message every
    handler sends nothing or one edit of exactly that reply, and never a
    new reply; when the cache holds none it sends nothing or one reply to
    the message, and never an edit.  [post_modules] itself, given a
    module to show, sends exactly that edit or that reply. *)
Theorem handlers_follow_the_record
    (str_upper : string -> string) (str_isalnum : string -> bool)
    (requests_get : trace -> string -> result bytes)
    (message_reply :
       trace -> Message -> string -> option MessageEmbed -> Message)
    (event_ : Event) (s : state) :
  msg event_ = None ->
  let recorded :=
    Pylru.lookup (id (message event_)) (Pylru.table (embeds_cache s)) in
  sends_for recorded (id (message event_)) (effects s)
    (effects (snd (on_message_create str_upper str_isalnum requests_get
                     message_reply event_ s)))
  /\ sends_for recorded (id (message event_)) (effects s)
       (effects (snd (on_message_update str_upper str_isalnum requests_get
                        message_reply event_ s)))
  /\ (forall modules : list (string * string),
        modules <> [] ->
        posts (effects (snd (post_modules message_reply event_
                               (message event_) modules s)))
        = posts (effects s)
          ++ [match recorded with
              | Some (modify_c, modify_m) =>
                  EvModify (channel_id modify_c) (id modify_m)
                    (reply_content modules) (built_embed modules)
              | None =>
                  EvReply (id (message event_)) (reply_content modules)
                    (reply_embed modules)
              end]).
Proof.
  intros Hmsg recorded.
  assert (Hpost : forall modules : list (string * string),
             modules <> [] ->
             posts (effects (snd (post_modules message_reply event_
                                    (message event_) modules s)))
             = posts (effects s)
               ++ [match recorded with
                   | Some (modify_c, modify_m) =>
                       EvModify (channel_id modify_c) (id modify_m)
                         (reply_content modules) (built_embed modules)
                   | None =>
                       EvReply (id (message event_)) (reply_content modules)
                         (reply_embed modules)
                   end]).
  { intros modules Hmodules. rewrite post_unfold. cbv zeta.
    destruct modules as [|m rest]; [contradiction|].
    unfold after_lookup. fold recorded.
    destruct recorded as [[modify_c modify_m]|];
      cbn [snd record_effect effects]; now rewrite posts_app. }
  assert (on_message_update str_upper str_isalnum requests_get
            message_reply event_ s
          = on_message_create str_upper str_isalnum requests_get
              message_reply event_ s) as ->.
  { unfold on_message_update, on_message_create, do_embeds. rewrite Hmsg.
    destruct (truthy (content (message event_))); [|reflexivity].
    cbn [negb]. now destruct (startswith _ _). }
  assert (H : sends_for recorded (id (message event_)) (effects s)
                (effects (snd (on_message_create str_upper str_isalnum
                                 requests_get message_reply event_ s))));
    [|now repeat split].
  left. unfold on_message_create. apply posts_embeds.
Qed.

Lemma handlers_follow_the_record_witness :
  sends_for
    (Pylru.lookup 7 (Pylru.table (embeds_cache Reconciler.replied_once)))
    7 (effects Reconciler.replied_once)
    (effects (snd (on_message_update ascii_upper ascii_isalnum archive chat
                     (incoming 7 "foo !A012") Reconciler.replied_once))).
Proof.
  apply (proj1 (proj2 (handlers_follow_the_record ascii_upper ascii_isalnum
                         archive chat (incoming 7 "foo !A012")
                         Reconciler.replied_once eq_refl))).
Defined.

End Replies.
